(** * smoke/bootstrap.ts: the k6 smoke scenario, its run configuration,
      its per-iteration classifier and its end-of-run summary.

    The development embeds the extended variant of [smoke/bootstrap.ts]
    (the one with [ENFORCE_THRESHOLDS], [statusCounts], [dataErrors] and
    [handleSummary]); the minimal variant's [options] and check appear in
    [Module Minimal].

    Conventions.
    - A JavaScript [number] is [NaN], one of the two infinities, or a
      finite value carried as the exact rational it denotes.  Comparison,
      [Math.round], [Math.floor], [Math.max] and [%] are exact on binary64
      values, so they are exact on that view; [x / 60] followed by
      [Math.floor] is exact for integers below [2^53], which is where the
      statements about formatted durations are made.  Quotients and
      products handed to [toFixed] are taken exactly.  The sign of zero
      is not tracked (no code path observes it).
    - What the host supplies (string-to-number conversion, the rendering
      of non-integral numbers, [toFixed], [toLocaleString]) is a [Host]
      record the definitions are parameterised by.
    - Module-level mutable state ([statusCounts], [statusOrder],
      [dataErrors], the k6 metrics) and the side effects ([console],
      [sleep], the transport call) live in a [World] threaded through a
      small state-and-exception monad. *)

From Stdlib Require Import ZArith QArith Qround String Ascii List Lia DecimalString.
From stdpp Require Import gmap strings list fin_maps.
Import ListNotations.

Close Scope Q_scope.
Local Open Scope string_scope.
Local Open Scope list_scope.
Local Open Scope Z_scope.

(* ===================================================================== *)
(** ** JavaScript numbers *)
(* ===================================================================== *)

Inductive number : Type :=
| NaN
| Infinity
| NegInfinity
| Finite (q : Q).

Definition ofZ (z : Z) : number := Finite (inject_Z z).

Definition Qlt_bool (x y : Q) : bool := negb (Qle_bool y x).

(** [Number.isNaN]. *)
Definition Number_isNaN (n : number) : bool :=
  match n with NaN => true | _ => false end.

(** The relational operator [a > b]: false as soon as one side is NaN. *)
Definition gt (a b : number) : bool :=
  match a, b with
  | NaN, _ | _, NaN => false
  | Infinity, Infinity => false
  | Infinity, _ => true
  | _, Infinity => false
  | NegInfinity, _ => false
  | Finite _, NegInfinity => true
  | Finite x, Finite y => Qlt_bool y x
  end.

(** [a < b]. *)
Definition lt (a b : number) : bool := gt b a.

(** [Math.round]: the nearest integer, ties towards plus infinity. *)
Definition round_half_up (q : Q) : Z := Qfloor (q + (1 # 2))%Q.

Definition Math_round (n : number) : number :=
  match n with
  | Finite q => ofZ (round_half_up q)
  | other => other
  end.

(** [Math.floor]. *)
Definition Math_floor (n : number) : number :=
  match n with
  | Finite q => ofZ (Qfloor q)
  | other => other
  end.

(** [Math.max] of two arguments. *)
Definition Math_max (a b : number) : number :=
  match a, b with
  | NaN, _ | _, NaN => NaN
  | _, _ => if gt b a then b else a
  end.

(** [a / d] for a positive finite literal [d] (the program only divides
    by 60 and 1000). *)
Definition div_by (a : number) (d : Q) : number :=
  match a with
  | Finite q => Finite (q / d)%Q
  | other => other
  end.

(** Truncation towards zero. *)
Definition Qtrunc (q : Q) : Z :=
  if Qlt_bool q 0 then (- Qfloor (- q)%Q)%Z else Qfloor q.

(** [a % d] for a positive finite literal [d]: the remainder takes the
    sign of the dividend; an infinite dividend gives NaN. *)
Definition rem_by (a : number) (d : Q) : number :=
  match a with
  | Finite q => Finite (q - d * inject_Z (Qtrunc (q / d)))%Q
  | _ => NaN
  end.

(** [a * d] for a positive finite literal [d]. *)
Definition mul_by (a : number) (d : Q) : number :=
  match a with
  | Finite q => Finite (q * d)%Q
  | other => other
  end.

(** [1 - a], taken exactly (the host rounds the difference to binary64;
    sign and comparison with 0 and 1 are not affected). *)
Definition one_minus (a : number) : number :=
  match a with
  | NaN => NaN
  | Infinity => NegInfinity
  | NegInfinity => Infinity
  | Finite q => Finite (1 - q)%Q
  end.

(** Truthiness of a number: neither zero nor NaN. *)
Definition truthy_number (n : number) : bool :=
  match n with
  | NaN => false
  | Finite q => negb (Qeq_bool q 0)
  | _ => true
  end.

(** Decimal digits of an integer, as a template literal prints it. *)
Definition string_of_Z (z : Z) : string := NilZero.string_of_int (Z.to_int z).

Definition is_integral (q : Q) : bool := (Qnum q mod Z.pos (Qden q) =? 0)%Z.

(** [Number.MAX_SAFE_INTEGER]. *)
Definition MAX_SAFE_INTEGER : Z := 2 ^ 53 - 1.

(* ===================================================================== *)
(** ** The host *)
(* ===================================================================== *)

Record Host : Type := {
  (** [Number(s)] on a non-empty string. *)
  StringToNumber : string -> number;
  (** [String(x)] where [x] is finite and either non-integral or beyond
      the safe integers (shortest round-trip digits). *)
  renderOther : Q -> string;
  (** [x.toFixed(digits)]. *)
  toFixed : number -> nat -> string;
  (** [x.toLocaleString()]. *)
  toLocaleString : number -> string
}.

(* ===================================================================== *)
(** ** Strings *)
(* ===================================================================== *)

Definition is_lower (c : ascii) : bool :=
  let n := nat_of_ascii c in ((97 <=? n) && (n <=? 122))%nat.

Definition is_upper (c : ascii) : bool :=
  let n := nat_of_ascii c in ((65 <=? n) && (n <=? 90))%nat.

Definition upper_ascii (c : ascii) : ascii :=
  if is_lower c then ascii_of_nat (nat_of_ascii c - 32)%nat else c.

Definition lower_ascii (c : ascii) : ascii :=
  if is_upper c then ascii_of_nat (nat_of_ascii c + 32)%nat else c.

Fixpoint map_string (f : ascii -> ascii) (s : string) : string :=
  match s with
  | EmptyString => EmptyString
  | String c r => String (f c) (map_string f r)
  end.

(** [s.toUpperCase()] and [s.toLowerCase()] on the ASCII letters; every
    other byte is left as it is.  No code point outside ASCII lower-cases
    to one of the letters of [true]; a few upper-case to ASCII letters
    (U+017F to S, U+0131 to I, U+00DF to SS), and on a [MODE] or
    [HTTP_METHOD] spelled with them [toUpperCase] here differs from the
    host's. *)
Definition toUpperCase : string -> string := map_string upper_ascii.
Definition toLowerCase : string -> string := map_string lower_ascii.

(** [parts.join(sep)]. *)
Fixpoint join (sep : string) (parts : list string) : string :=
  match parts with
  | [] => ""
  | [p] => p
  | p :: rest => p +:+ sep +:+ join sep rest
  end.

(** [a ?? b]. *)
Definition nullish {A} (a : option A) (b : A) : A :=
  match a with Some x => x | None => b end.

(** [a ?? b] where [b] may itself be undefined. *)
Definition nullish_opt {A} (a b : option A) : option A :=
  match a with Some x => Some x | None => b end.

Notation "a ?? b" := (nullish a b) (at level 45, right associativity).

(** Truthiness of an optional string: defined and non-empty. *)
Definition truthy_string (s : option string) : bool :=
  match s with
  | Some (String _ _) => true
  | _ => false
  end.

(* ===================================================================== *)
(** ** The environment [__ENV] *)
(* ===================================================================== *)

Record Env : Type := {
  MODE : option string;
  CUSTOM_VUS : option string;
  CUSTOM_DURATION_SECONDS : option string;
  ENFORCE_THRESHOLDS : option string;
  TARGET_URL : option string;
  API_BASE_URL : option string;
  HTTP_METHOD : option string;
  HTTP_HEADERS : option string;
  HTTP_BODY : option string
}.

Definition emptyEnv : Env :=
  {| MODE := None; CUSTOM_VUS := None; CUSTOM_DURATION_SECONDS := None;
     ENFORCE_THRESHOLDS := None; TARGET_URL := None; API_BASE_URL := None;
     HTTP_METHOD := None; HTTP_HEADERS := None; HTTP_BODY := None |}.

(* ===================================================================== *)
(** ** Configuration resolver (module-level code of the script) *)
(* ===================================================================== *)

Record Profile : Type := { vus : number; duration : string }.

Record Thresholds : Type := {
  http_req_failed : list string;
  http_req_duration : list string
}.

(** The exported [options] object.  An absent [thresholds] property is
    [None]. *)
Record Options : Type := {
  opt_vus : number;
  opt_duration : string;
  summaryTrendStats : list string;
  thresholds : option Thresholds
}.

(** The object literal bound to [scenarioOptions]. *)
Definition scenarioOptions_literal : gmap string Profile :=
  <["CUSTOM" := {| vus := ofZ 20; duration := "1m" |}]>
  (<["SPIKE" := {| vus := ofZ 10; duration := "20s" |}]>
  (<["SOAK" := {| vus := ofZ 3; duration := "2m" |}]>
  (<["STRESS" := {| vus := ofZ 5; duration := "1m" |}]>
  (<["SMOKE" := {| vus := ofZ 2; duration := "30s" |}]> ∅)))).

Definition SMOKE_profile : Profile := {| vus := ofZ 2; duration := "30s" |}.

Section Resolver.
Variable host : Host.

(** [Number(s)]: the empty string converts to 0. *)
Definition Number (s : string) : number :=
  match s with
  | EmptyString => ofZ 0
  | _ => StringToNumber host s
  end.

(** A number inside a template literal.  Up to [MAX_SAFE_INTEGER] the
    shortest digits that read back as an integer are the digits of that
    integer. *)
Definition numberToString (n : number) : string :=
  match n with
  | NaN => "NaN"
  | Infinity => "Infinity"
  | NegInfinity => "-Infinity"
  | Finite q =>
      if is_integral q && (Z.abs (Qfloor q) <=? MAX_SAFE_INTEGER)
      then string_of_Z (Qfloor q)
      else renderOther host q
  end.

Definition formatDurationSeconds (totalSeconds : number) : string :=
  let safeSeconds := Math_max (ofZ 1) totalSeconds in
  let minutes := Math_floor (div_by safeSeconds 60) in
  let seconds := rem_by safeSeconds 60 in
  let parts : list string := [] in
  let parts :=
    if gt minutes (ofZ 0) then parts ++ [numberToString minutes +:+ "m"]
    else parts in
  let parts :=
    if gt seconds (ofZ 0) || (length parts =? 0)%nat
    then parts ++ [numberToString seconds +:+ "s"]
    else parts in
  join "" parts.

Definition customVusOverride (env : Env) : number :=
  Number (CUSTOM_VUS env ?? "").

Definition customDurationOverride (env : Env) : number :=
  Number (CUSTOM_DURATION_SECONDS env ?? "").

(** The first conditional reassignment of [scenarioOptions.CUSTOM]. *)
Definition apply_vus_override (v : number)
    (so : gmap string Profile) : gmap string Profile :=
  if negb (Number_isNaN v) && gt v (ofZ 0)
  then alter (fun p => {| vus := Math_round v; duration := duration p |})
             "CUSTOM" so
  else so.

(** The second one. *)
Definition apply_duration_override (d : number)
    (so : gmap string Profile) : gmap string Profile :=
  if negb (Number_isNaN d) && gt d (ofZ 0)
  then alter (fun p => {| vus := vus p;
                          duration := formatDurationSeconds (Math_round d) |})
             "CUSTOM" so
  else so.

(** [scenarioOptions] once the module has been evaluated. *)
Definition scenarioOptions (env : Env) : gmap string Profile :=
  apply_duration_override (customDurationOverride env)
    (apply_vus_override (customVusOverride env) scenarioOptions_literal).

Definition selectedMode (env : Env) : string :=
  toUpperCase (MODE env ?? "SMOKE").

Definition enforceThresholds (env : Env) : bool :=
  String.eqb (toLowerCase (ENFORCE_THRESHOLDS env ?? "false")) "true".

Definition strict_thresholds : Thresholds :=
  {| http_req_failed := ["rate<0.05"];
     http_req_duration := ["p(95)<3500"] |}.

(** [scenarioOptions[selectedMode] ?? scenarioOptions.SMOKE]. *)
Definition selectedProfile (env : Env) : Profile :=
  nullish_opt (scenarioOptions env !! selectedMode env)
              (scenarioOptions env !! "SMOKE")
  ?? SMOKE_profile.

Definition options (env : Env) : Options :=
  let p := selectedProfile env in
  {| opt_vus := vus p;
     opt_duration := duration p;
     summaryTrendStats :=
       ["avg"; "min"; "med"; "max"; "p(75)"; "p(90)"; "p(95)"; "p(99)"];
     thresholds :=
       if enforceThresholds env then Some strict_thresholds else None |}.

End Resolver.

(** The variant without threshold switch: thresholds are always attached,
    and the per-iteration check accepts every non-zero status below 500. *)
Module Minimal.

Definition thresholds_literal : Thresholds :=
  {| http_req_failed := ["rate<0.05"];
     http_req_duration := ["p(95)<2200"] |}.

Definition check_name : string := "status is < 500".

Definition check_passes (status : Z) : bool :=
  negb (status =? 0) && (status <? 500).

End Minimal.

(* ===================================================================== *)
(** ** A reference host for running the model *)
(* ===================================================================== *)

(** Conversion of the plain decimal forms [digits], [digits.digits] and
    [Infinity], each with an optional sign, to the exact value written;
    every other string is NaN here. *)
Module RefHost.

Definition digit_of (c : ascii) : option Z :=
  let n := nat_of_ascii c in
  if ((48 <=? n) && (n <=? 57))%nat then Some (Z.of_nat (n - 48)%nat) else None.

(** Digits read so far, as numerator and power-of-ten denominator. *)
Fixpoint read_fraction (s : string) (num : Z) (den : positive) : option Q :=
  match s with
  | EmptyString => Some (num # den)%Q
  | String c r =>
      match digit_of c with
      | Some d => read_fraction r (10 * num + d) (10 * den)
      | None => None
      end
  end.

Fixpoint read_integer (s : string) (acc : Z) (seen : bool) : option Q :=
  match s with
  | EmptyString => if seen then Some (inject_Z acc) else None
  | String "." r => if seen then read_fraction r acc 1 else None
  | String c r =>
      match digit_of c with
      | Some d => read_integer r (10 * acc + d) true
      | None => None
      end
  end.

Definition unsigned (s : string) : number :=
  if String.eqb s "Infinity" then Infinity
  else match read_integer s 0 false with
       | Some q => Finite q
       | None => NaN
       end.

Definition negate (n : number) : number :=
  match n with
  | NaN => NaN
  | Infinity => NegInfinity
  | NegInfinity => Infinity
  | Finite q => Finite (- q)%Q
  end.

Definition toNumber (s : string) : number :=
  match s with
  | String "-" r => negate (unsigned r)
  | String "+" r => unsigned r
  | _ => unsigned s
  end.

Definition host : Host :=
  {| StringToNumber := toNumber;
     renderOther := fun q =>
       string_of_Z (Qnum q) +:+ "/" +:+ string_of_Z (Z.pos (Qden q));
     toFixed := fun n _ =>
       match n with Finite q => string_of_Z (Qfloor q) | _ => "NaN" end;
     toLocaleString := fun n =>
       match n with Finite q => string_of_Z (Qfloor q) | _ => "NaN" end |}.

End RefHost.

Definition customEnv (vusOverride durationOverride : option string) : Env :=
  {| MODE := Some "custom"; CUSTOM_VUS := vusOverride;
     CUSTOM_DURATION_SECONDS := durationOverride;
     ENFORCE_THRESHOLDS := None; TARGET_URL := None; API_BASE_URL := None;
     HTTP_METHOD := None; HTTP_HEADERS := None; HTTP_BODY := None |}.


(* ===================================================================== *)
(** ** [JSON.parse] *)
(* ===================================================================== *)

(** A parsed JSON text.  A number keeps the literal it was written as;
    object members are kept in the order of their first occurrence, a
    repeated key overwriting the earlier value. *)
#[local] Set Warnings "-register-all".
Inductive json : Type :=
| JNull
| JBool (b : bool)
| JNumber (literal : string)
| JString (s : string)
| JArray (items : list json)
| JObject (members : list (string * json)).

Module JSON.

Definition quote : ascii := "034"%char.
Definition backslash : ascii := "092"%char.

Definition is_ws (c : ascii) : bool :=
  let n := nat_of_ascii c in
  ((n =? 9) || (n =? 10) || (n =? 13) || (n =? 32))%nat.

Definition is_digit (c : ascii) : bool :=
  let n := nat_of_ascii c in ((48 <=? n) && (n <=? 57))%nat.

Fixpoint skip_ws (s : string) : string :=
  match s with
  | String c r => if is_ws c then skip_ws r else s
  | EmptyString => s
  end.

Definition hex_value (c : ascii) : option N :=
  let n := N_of_ascii c in
  if ((48 <=? n) && (n <=? 57))%N then Some (n - 48)%N
  else if ((97 <=? n) && (n <=? 102))%N then Some (n - 87)%N
  else if ((65 <=? n) && (n <=? 70))%N then Some (n - 55)%N
  else None.

(** UTF-8 bytes of a code unit below 0x10000 (a surrogate half is
    encoded on its own). *)
Definition utf8 (u : N) : string :=
  if (u <? 128)%N then String (ascii_of_N u) ""
  else if (u <? 2048)%N then
    String (ascii_of_N (192 + u / 64)%N)
      (String (ascii_of_N (128 + u mod 64)%N) "")
  else
    String (ascii_of_N (224 + u / 4096)%N)
      (String (ascii_of_N (128 + (u / 64) mod 64)%N)
         (String (ascii_of_N (128 + u mod 64)%N) "")).

Definition escape (c : ascii) : option ascii :=
  let n := nat_of_ascii c in
  (* quote, backslash, solidus, then b f n r t *)
  if (n =? 34)%nat then Some quote
  else if (n =? 92)%nat then Some backslash
  else if (n =? 47)%nat then Some "/"%char
  else if (n =? 98)%nat then Some "008"%char
  else if (n =? 102)%nat then Some "012"%char
  else if (n =? 110)%nat then Some "010"%char
  else if (n =? 114)%nat then Some "013"%char
  else if (n =? 116)%nat then Some "009"%char
  else None.

(** The characters of a string literal after its opening quote, up to
    and including the closing one. *)
Fixpoint string_body (s : string) : option (string * string) :=
  match s with
  | EmptyString => None
  | String c r =>
      if Ascii.eqb c quote then Some ("", r)
      else if Ascii.eqb c backslash then
        match r with
        | String "u" (String h1 (String h2 (String h3 (String h4 r')))) =>
            match hex_value h1, hex_value h2, hex_value h3, hex_value h4,
                  string_body r' with
            | Some a, Some b, Some c', Some d, Some (str, rest) =>
                Some (utf8 (4096 * a + 256 * b + 16 * c' + d)%N +:+ str, rest)
            | _, _, _, _, _ => None
            end
        | String e r' =>
            match escape e, string_body r' with
            | Some x, Some (str, rest) => Some (String x str, rest)
            | _, _ => None
            end
        | EmptyString => None
        end
      else if (nat_of_ascii c <? 32)%nat then None
      else
        match string_body r with
        | Some (str, rest) => Some (String c str, rest)
        | None => None
        end
  end.

(** The longest prefix of digits, and what follows it. *)
Fixpoint digits (s : string) : string * string :=
  match s with
  | String c r =>
      if is_digit c then let (d, rest) := digits r in (String c d, rest)
      else ("", s)
  | EmptyString => ("", s)
  end.

Definition nonempty (s : string) : bool :=
  match s with EmptyString => false | _ => true end.

Definition int_part (s : string) : option (string * string) :=
  let (d, rest) := digits s in
  match d with
  | EmptyString => None
  | String "0" (String _ _) => None
  | _ => Some (d, rest)
  end.

Definition frac_part (s : string) : option (string * string) :=
  match s with
  | String "." r =>
      let (d, rest) := digits r in
      if nonempty d then Some ("." +:+ d, rest) else None
  | _ => Some ("", s)
  end.

Definition exp_digits (mark : string) (s : string) : option (string * string) :=
  let (d, rest) := digits s in
  if nonempty d then Some (mark +:+ d, rest) else None.

Definition exp_part (s : string) : option (string * string) :=
  match s with
  | String "e" (String "+" r) => exp_digits "e+" r
  | String "e" (String "-" r) => exp_digits "e-" r
  | String "E" (String "+" r) => exp_digits "E+" r
  | String "E" (String "-" r) => exp_digits "E-" r
  | String "e" r => exp_digits "e" r
  | String "E" r => exp_digits "E" r
  | _ => Some ("", s)
  end.

Definition number_literal (s : string) : option (string * string) :=
  let (sign, s0) :=
    match s with String "-" r => ("-", r) | _ => ("", s) end in
  match int_part s0 with
  | None => None
  | Some (i, s1) =>
      match frac_part s1 with
      | None => None
      | Some (f, s2) =>
          match exp_part s2 with
          | None => None
          | Some (e, s3) => Some (sign +:+ i +:+ f +:+ e, s3)
          end
      end
  end.

(** [s] starts with [word]: what follows it. *)
Fixpoint after (word s : string) : option string :=
  match word, s with
  | EmptyString, _ => Some s
  | String a w, String b r => if Ascii.eqb a b then after w r else None
  | String _ _, EmptyString => None
  end.

Fixpoint set_member (k : string) (v : json) (ms : list (string * json))
  : list (string * json) :=
  match ms with
  | [] => [(k, v)]
  | (k', v') :: rest =>
      if String.eqb k k' then (k, v) :: rest
      else (k', v') :: set_member k v rest
  end.

(** One unit of fuel per nested call; a call chain is at most twice as
    long as the text. *)
Fixpoint value (fuel : nat) (s : string) : option (json * string) :=
  match fuel with
  | O => None
  | S fuel =>
      match skip_ws s with
      | String "{" r =>
          match skip_ws r with
          | String "}" r' => Some (JObject [], r')
          | r' => members fuel r' []
          end
      | String "[" r =>
          match skip_ws r with
          | String "]" r' => Some (JArray [], r')
          | r' => elements fuel r' []
          end
      | String c r as s' =>
          if Ascii.eqb c quote then
            match string_body r with
            | Some (str, rest) => Some (JString str, rest)
            | None => None
            end
          else
            match after "true" s', after "false" s', after "null" s' with
            | Some rest, _, _ => Some (JBool true, rest)
            | _, Some rest, _ => Some (JBool false, rest)
            | _, _, Some rest => Some (JNull, rest)
            | None, None, None =>
                match number_literal s' with
                | Some (lit, rest) => Some (JNumber lit, rest)
                | None => None
                end
            end
      | EmptyString => None
      end
  end
with elements (fuel : nat) (s : string) (acc : list json)
  : option (json * string) :=
  match fuel with
  | O => None
  | S fuel =>
      match value fuel s with
      | Some (v, r) =>
          match skip_ws r with
          | String "," r' => elements fuel r' (acc ++ [v])
          | String "]" r' => Some (JArray (acc ++ [v]), r')
          | _ => None
          end
      | None => None
      end
  end
with members (fuel : nat) (s : string) (acc : list (string * json))
  : option (json * string) :=
  match fuel with
  | O => None
  | S fuel =>
      match skip_ws s with
      | String c r =>
          if Ascii.eqb c quote then
            match string_body r with
            | Some (k, r1) =>
                match skip_ws r1 with
                | String ":" r2 =>
                    match value fuel r2 with
                    | Some (v, r3) =>
                        match skip_ws r3 with
                        | String "," r4 => members fuel r4 (set_member k v acc)
                        | String "}" r4 =>
                            Some (JObject (set_member k v acc), r4)
                        | _ => None
                        end
                    | None => None
                    end
                | _ => None
                end
            | None => None
            end
          else None
      | EmptyString => None
      end
  end.

(** [JSON.parse(text)]; [None] stands for the SyntaxError it throws. *)
Definition parse (text : string) : option json :=
  match value (2 * String.length text + 2) text with
  | Some (v, rest) =>
      match skip_ws rest with
      | EmptyString => Some v
      | _ => None
      end
  | None => None
  end.

End JSON.

(* ===================================================================== *)
(** ** The world: module state, k6 metrics, observable effects *)
(* ===================================================================== *)

(** A thrown value; [thrown_message] is its [message] property when it
    has one. *)
Record Thrown : Type := { thrown_message : option string }.

(** The response descriptor of [http.request]; [error] is empty when the
    transport reports none. *)
Record Response : Type := { res_status : Z; res_error : string }.

(** What the transport does on one call. *)
Inductive Transport : Type :=
| Responds (r : Response)
| Raises (e : Thrown).

Record ErrorSample : Type := { status : Z; message : string; url : string }.

Inductive Bucket : Type := auth | client | server.

#[global] Instance Bucket_eq_dec : EqDecision Bucket.
Proof. solve_decision. Defined.

(** The object bound to [dataErrors]. *)
Record DataErrors : Type := {
  de_auth : list ErrorSample;
  de_client : list ErrorSample;
  de_server : list ErrorSample
}.

Definition get_bucket (b : Bucket) (d : DataErrors) : list ErrorSample :=
  match b with
  | auth => de_auth d
  | client => de_client d
  | server => de_server d
  end.

Definition set_bucket (b : Bucket) (l : list ErrorSample) (d : DataErrors)
  : DataErrors :=
  match b with
  | auth => {| de_auth := l; de_client := de_client d; de_server := de_server d |}
  | client => {| de_auth := de_auth d; de_client := l; de_server := de_server d |}
  | server => {| de_auth := de_auth d; de_client := de_client d; de_server := l |}
  end.

Inductive Event : Type :=
| ConsoleLog (text : string)
| ConsoleWarn (text : string)
| Sleep (seconds : Z)
| HttpRequest (method : string) (target : string) (body : option string)
              (headers : json) (outcome : Transport).

Record World : Type := {
  (** [statusCounts] and [statusOrder]. *)
  statusCounts : gmap Z nat;
  statusOrder : list Z;
  dataErrors : DataErrors;
  (** Samples added to the Trend [status_codes]. *)
  statusTrend : list Z;
  (** Totals added to the Counters [auth_errors], [client_errors] and
      [server_errors]. *)
  authErrorCounter : nat;
  clientErrorCounter : nat;
  serverErrorCounter : nat;
  (** Results recorded by [check], by check name, oldest first. *)
  checks : list (string * bool);
  (** Console output, pauses and transport calls, oldest first. *)
  trace : list Event
}.

Definition initial_world : World :=
  {| statusCounts := ∅; statusOrder := [];
     dataErrors := {| de_auth := []; de_client := []; de_server := [] |};
     statusTrend := []; authErrorCounter := 0; clientErrorCounter := 0;
     serverErrorCounter := 0; checks := []; trace := [] |}.

Definition with_statusCounts (f : gmap Z nat -> gmap Z nat) (w : World) : World :=
  {| statusCounts := f (statusCounts w); statusOrder := statusOrder w;
     dataErrors := dataErrors w; statusTrend := statusTrend w;
     authErrorCounter := authErrorCounter w;
     clientErrorCounter := clientErrorCounter w;
     serverErrorCounter := serverErrorCounter w;
     checks := checks w; trace := trace w |}.

Definition with_statusOrder (f : list Z -> list Z) (w : World) : World :=
  {| statusCounts := statusCounts w; statusOrder := f (statusOrder w);
     dataErrors := dataErrors w; statusTrend := statusTrend w;
     authErrorCounter := authErrorCounter w;
     clientErrorCounter := clientErrorCounter w;
     serverErrorCounter := serverErrorCounter w;
     checks := checks w; trace := trace w |}.

Definition with_dataErrors (f : DataErrors -> DataErrors) (w : World) : World :=
  {| statusCounts := statusCounts w; statusOrder := statusOrder w;
     dataErrors := f (dataErrors w); statusTrend := statusTrend w;
     authErrorCounter := authErrorCounter w;
     clientErrorCounter := clientErrorCounter w;
     serverErrorCounter := serverErrorCounter w;
     checks := checks w; trace := trace w |}.

Definition with_statusTrend (f : list Z -> list Z) (w : World) : World :=
  {| statusCounts := statusCounts w; statusOrder := statusOrder w;
     dataErrors := dataErrors w; statusTrend := f (statusTrend w);
     authErrorCounter := authErrorCounter w;
     clientErrorCounter := clientErrorCounter w;
     serverErrorCounter := serverErrorCounter w;
     checks := checks w; trace := trace w |}.

Definition with_counter (b : Bucket) (f : nat -> nat) (w : World) : World :=
  {| statusCounts := statusCounts w; statusOrder := statusOrder w;
     dataErrors := dataErrors w; statusTrend := statusTrend w;
     authErrorCounter :=
       match b with auth => f (authErrorCounter w) | _ => authErrorCounter w end;
     clientErrorCounter :=
       match b with client => f (clientErrorCounter w) | _ => clientErrorCounter w end;
     serverErrorCounter :=
       match b with server => f (serverErrorCounter w) | _ => serverErrorCounter w end;
     checks := checks w; trace := trace w |}.

Definition with_checks (f : list (string * bool) -> list (string * bool))
    (w : World) : World :=
  {| statusCounts := statusCounts w; statusOrder := statusOrder w;
     dataErrors := dataErrors w; statusTrend := statusTrend w;
     authErrorCounter := authErrorCounter w;
     clientErrorCounter := clientErrorCounter w;
     serverErrorCounter := serverErrorCounter w;
     checks := f (checks w); trace := trace w |}.

Definition with_trace (f : list Event -> list Event) (w : World) : World :=
  {| statusCounts := statusCounts w; statusOrder := statusOrder w;
     dataErrors := dataErrors w; statusTrend := statusTrend w;
     authErrorCounter := authErrorCounter w;
     clientErrorCounter := clientErrorCounter w;
     serverErrorCounter := serverErrorCounter w;
     checks := checks w; trace := f (trace w) |}.

Definition counter_of (b : Bucket) (w : World) : nat :=
  match b with
  | auth => authErrorCounter w
  | client => clientErrorCounter w
  | server => serverErrorCounter w
  end.

(* ===================================================================== *)
(** ** Statements: state plus exceptions *)
(* ===================================================================== *)

Inductive Completion (A : Type) : Type :=
| Normal (a : A)
| Throw (e : Thrown).
Arguments Normal {A} a.
Arguments Throw {A} e.

Definition M (A : Type) : Type := World -> Completion A * World.

Definition ret {A} (a : A) : M A := fun w => (Normal a, w).

Definition bind {A B} (c : M A) (k : A -> M B) : M B :=
  fun w =>
    match c w with
    | (Normal a, w') => k a w'
    | (Throw e, w') => (Throw e, w')
    end.

Definition throw {A} (e : Thrown) : M A := fun w => (Throw e, w).

(** [try { body } catch (error) { handler }]: what [body] did to the
    world before throwing stays done. *)
Definition try_catch {A} (body : M A) (handler : Thrown -> M A) : M A :=
  fun w =>
    match body w with
    | (Normal a, w') => (Normal a, w')
    | (Throw e, w') => handler e w'
    end.

Definition get {A} (f : World -> A) : M A := fun w => (Normal (f w), w).

Definition modify (f : World -> World) : M unit := fun w => (Normal tt, f w).

Notation "x <- c ;; k" := (bind c (fun x => k))
  (at level 90, c at next level, right associativity).
Notation "c ;;; k" := (bind c (fun _ => k))
  (at level 90, right associativity).

Definition emit (e : Event) : M unit := modify (with_trace (fun t => t ++ [e])).

Definition console_log (text : string) : M unit := emit (ConsoleLog text).
Definition console_warn (text : string) : M unit := emit (ConsoleWarn text).
Definition sleep (seconds : Z) : M unit := emit (Sleep seconds).

(** [counter.add(1)] on the counter of a bucket. *)
Definition counter_add (b : Bucket) (n : nat) : M unit :=
  modify (with_counter b (fun c => (c + n)%nat)).

(** [check(response, { name: predicate })]. *)
Definition check (name : string) (passed : bool) : M unit :=
  modify (with_checks (fun l => l ++ [(name, passed)])).

(** [http.request(method, url, body, { headers })]: the call is recorded,
    then it returns the response or throws. *)
Definition http_request (t : Transport) (method target : string)
    (body : option string) (headers : json) : M Response :=
  emit (HttpRequest method target body headers t) ;;;
  match t with
  | Responds r => ret r
  | Raises e => throw e
  end.

(** [JSON.parse] as a statement. *)
Definition JSON_parse (text : string) : M json :=
  match JSON.parse text with
  | Some v => ret v
  | None => throw {| thrown_message := Some "SyntaxError" |}
  end.

(* ===================================================================== *)
(** ** Request descriptor (module-level code) *)
(* ===================================================================== *)

Record Config : Type := {
  targetUrl : option string;
  method : string;
  headers : json;
  body : option string
}.

Definition headers_warning : string :=
  "Unable to parse HTTP_HEADERS env. Falling back to no headers.".

(** [let headers = {}; if (__ENV.HTTP_HEADERS) { try ... catch ... }]. *)
Definition resolve_headers (env : Env) : M json :=
  let headers := JObject [] in
  if truthy_string (HTTP_HEADERS env) then
    try_catch
      (JSON_parse (HTTP_HEADERS env ?? ""))
      (fun error => console_warn headers_warning ;;; ret headers)
  else ret headers.

Definition resolve_method (env : Env) : string :=
  toUpperCase (HTTP_METHOD env ?? "GET").

Definition resolve_body (env : Env) : option string :=
  let body := if truthy_string (HTTP_BODY env) then HTTP_BODY env else None in
  if String.eqb (resolve_method env) "GET" || String.eqb (resolve_method env) "HEAD"
  then None else body.

(** Evaluation of the module's request constants. *)
Definition load_config (env : Env) : M Config :=
  h <- resolve_headers env ;;
  ret {| targetUrl := nullish_opt (TARGET_URL env) (API_BASE_URL env);
         method := resolve_method env;
         headers := h;
         body := resolve_body env |}.

(* ===================================================================== *)
(** ** [runScenario] *)
(* ===================================================================== *)

Definition skip_notice : string :=
  "Skipping load test: TARGET_URL/API_BASE_URL is not set.".

Definition check_name : string := "status is < 400".

Definition check_passes (status : Z) : bool :=
  negb (status =? 0) && (status <? 400).

(** The nested conditional choosing the bucket. *)
Definition bucket_of (status : Z) : Bucket :=
  if (status =? 401) || (status =? 403) then auth
  else if (status >=? 500) || (status =? 0) then server
  else client.

(** [existing.length < 3] guarding [existing.push(sample)], followed by
    the write-back into [dataErrors]. *)
Definition record_sample (b : Bucket) (sample : ErrorSample) : M unit :=
  existing <- get (fun w => get_bucket b (dataErrors w)) ;;
  let existing :=
    if (length existing <? 3)%nat then existing ++ [sample] else existing in
  modify (with_dataErrors (set_bucket b existing)).

(** The [catch] block; it ends in [return]. *)
Definition on_transport_failure (target : string) (error : Thrown) : M unit :=
  record_sample server
    {| status := 0;
       message := thrown_message error ?? "request threw";
       url := target |} ;;;
  counter_add server 1 ;;;
  sleep 1.

Definition http_message (response : Response) : string :=
  match res_error response with
  | EmptyString => "HTTP " +:+ string_of_Z (res_status response)
  | e => e
  end.

(** Everything after the [try] statement. *)
Definition on_response (target : string) (response : Response) : M unit :=
  let st := res_status response in
  check check_name (check_passes st) ;;;
  modify (with_statusTrend (fun l => l ++ [st])) ;;;
  modify (with_statusCounts (fun m => <[st := (nullish (m !! st) 0 + 1)%nat]> m)) ;;;
  modify (with_statusOrder (fun l =>
            if bool_decide (st ∈ l) then l else l ++ [st])) ;;;
  (if (st =? 0) || (st >=? 400) then
     let bucket := bucket_of st in
     record_sample bucket
       {| status := st; message := http_message response; url := target |} ;;;
     counter_add bucket 1
   else ret tt) ;;;
  sleep 1.

(** One invocation of the default export; [t] is what the transport does
    if it is called. *)
Definition runScenario (cfg : Config) (t : Transport) : M unit :=
  if negb (truthy_string (targetUrl cfg)) then
    console_log skip_notice ;;;
    sleep 1
  else
    let target := targetUrl cfg ?? "" in
    response <-
      try_catch
        (r <- http_request t (method cfg) target (body cfg) (headers cfg) ;;
         ret (Some r))
        (fun error => on_transport_failure target error ;;; ret None) ;;
    match response with
    | None => ret tt
    | Some response => on_response target response
    end.

(** The runtime invoking the entry point once per transport behaviour. *)
Definition iterate (cfg : Config) (ts : list Transport) (w : World) : World :=
  fold_left (fun w t => snd (runScenario cfg t w)) ts w.

(* ===================================================================== *)
(** ** [handleSummary] *)
(* ===================================================================== *)

(** One entry of [data.metrics]: its own numeric properties and its
    [values] object. *)
Record Metric : Type := {
  props : gmap string number;
  values : option (gmap string number)
}.

Record RunState : Type := { testRunDurationMs : option number }.

(** The argument k6 passes to [handleSummary]. *)
Record SummaryData : Type := {
  metrics : option (gmap string Metric);
  state : option RunState
}.

Record Summary : Type := { stdout : string }.

(** The number literal [0.05]: the binary64 value nearest to 1/20. *)
Definition lit_0_05 : number :=
  Finite (7205759403792794 # 144115188075855872)%Q.

Definition ESC : string := String "027"%char "".
Definition reset : string := ESC +:+ "[0m".
Definition color (ok : bool) : string :=
  if ok then ESC +:+ "[32m" else ESC +:+ "[31m".

Definition no_samples_line : string :=
  "- Failures detected but no error samples captured. Check connectivity/auth.".

Section Reporter.
Variable host : Host.

Definition fmtPct (value : option number) : string :=
  match value with
  | Some v => toFixed host (mul_by v 100) 2 +:+ "%"
  | None => "n/a"
  end.

Definition fmtMs (value : option number) : string :=
  match value with
  | Some v => toFixed host v 2 +:+ " ms"
  | None => "n/a"
  end.

Definition fmtCount (value : option number) : string :=
  match value with
  | Some v => toLocaleString host v
  | None => "n/a"
  end.

Definition fmtRate (value : option number) : string :=
  match value with
  | Some v => toFixed host v 2 +:+ "/s"
  | None => "n/a"
  end.

(** [data.metrics?.[name]]. *)
Definition metric (data : SummaryData) (name : string) : option Metric :=
  match metrics data with
  | Some ms => ms !! name
  | None => None
  end.

(** [metrics[name]?.values ?? {}]. *)
Definition values_of (data : SummaryData) (name : string) : gmap string number :=
  match metric data name with
  | Some m => values m ?? ∅
  | None => ∅
  end.

(** [metrics[name]?.values?.[key]]. *)
Definition value_of (data : SummaryData) (name key : string) : option number :=
  match metric data name with
  | Some m => match values m with Some vs => vs !! key | None => None end
  | None => None
  end.

(** [data.metrics?.[name]?.[key]]. *)
Definition prop_of (data : SummaryData) (name key : string) : option number :=
  match metric data name with
  | Some m => props m !! key
  | None => None
  end.

(** [httpFailed.rate ?? httpFailed.values?.rate]. *)
Definition rateFailed (data : SummaryData) : option number :=
  nullish_opt (prop_of data "http_req_failed" "rate")
              (value_of data "http_req_failed" "rate").

Definition successRate (data : SummaryData) : option number :=
  match rateFailed data with
  | Some r => Some (Math_max (ofZ 0) (one_minus r))
  | None => None
  end.

Definition bucket_line (label : string) (errors : list ErrorSample) : string :=
  match errors with
  | first :: _ =>
      "- " +:+ label +:+ " errors: " +:+ string_of_Z (Z.of_nat (length errors))
      +:+ " (example status=" +:+ string_of_Z (status first)
      +:+ " url=" +:+ url first +:+ " msg=" +:+ message first +:+ ")"
  | [] => "- " +:+ label +:+ " errors: none"
  end.

(** The array literal bound to [errorsSection]. *)
Definition errorsSection_literal (w : World) (data : SummaryData) : list string :=
  [ color (lt (rateFailed data ?? ofZ 0) lit_0_05) +:+ "Errors" +:+ reset;
    "- Requests: " +:+ fmtCount (values_of data "http_reqs" !! "count")
      +:+ " (" +:+ fmtRate (values_of data "http_reqs" !! "rate") +:+ ")";
    "- Failed rate: " +:+ fmtPct (rateFailed data);
    "- Success rate: " +:+ fmtPct (successRate data);
    bucket_line "Auth" (de_auth (dataErrors w));
    bucket_line "Client" (de_client (dataErrors w));
    bucket_line "Server" (de_server (dataErrors w)) ].

(** [errorsSection] after the conditional [push]. *)
Definition errorsSection (w : World) (data : SummaryData) : list string :=
  let authErrors := de_auth (dataErrors w) in
  let clientErrors := de_client (dataErrors w) in
  let serverErrors := de_server (dataErrors w) in
  if gt (rateFailed data ?? ofZ 0) (ofZ 0)
     && (length authErrors + length clientErrors + length serverErrors =? 0)%nat
  then errorsSection_literal w data ++ [no_samples_line]
  else errorsSection_literal w data.

Definition latencySection (data : SummaryData) : list string :=
  let latency := values_of data "http_req_duration" in
  let p95 := latency !! "p(95)" in
  let avg := nullish_opt (latency !! "avg") (latency !! "average") in
  [ color (lt (p95 ?? ofZ 0) (ofZ 2200)) +:+ "Latency" +:+ reset;
    "- p95: " +:+ fmtMs p95;
    "- p99: " +:+ fmtMs (latency !! "p(99)");
    "- p75: " +:+ fmtMs (latency !! "p(75)");
    "- avg: " +:+ fmtMs avg;
    "- min/max: " +:+ fmtMs (latency !! "min") +:+ " / " +:+ fmtMs (latency !! "max");
    "- p50: " +:+ fmtMs (latency !! "med") +:+ " p90: " +:+ fmtMs (latency !! "p(90)") ].

Definition throughputSection (data : SummaryData) : list string :=
  [ "Throughput";
    "- Iterations: " +:+ fmtCount (value_of data "iterations" "count")
      +:+ " (" +:+ fmtRate (value_of data "iterations" "rate") +:+ ")";
    "- Data in/out: " +:+ fmtCount (value_of data "data_received" "count")
      +:+ " bytes / " +:+ fmtCount (value_of data "data_sent" "count")
      +:+ " bytes" ].

Definition vusSection (data : SummaryData) : list string :=
  [ "Resources";
    "- VUs: current=" +:+ fmtCount (value_of data "vus" "value")
      +:+ " max=" +:+ fmtCount (value_of data "vus_max" "max") ].

Definition top_codes (w : World) : string :=
  match statusOrder w with
  | [] => "none captured"
  | order =>
      join ", "
        (map (fun code =>
                string_of_Z code +:+ " (" +:+
                string_of_Z (Z.of_nat (statusCounts w !! code ?? 0%nat)) +:+ ")")
             (firstn 5 order))
  end.

Definition statusSection (w : World) (data : SummaryData) : list string :=
  let statusMetrics := values_of data "status_codes" in
  [ "Status codes";
    "- min/max: " +:+ fmtCount (statusMetrics !! "min") +:+ " / "
      +:+ fmtCount (statusMetrics !! "max");
    "- p50/p90/p99: " +:+ fmtCount (statusMetrics !! "med") +:+ " / "
      +:+ fmtCount (statusMetrics !! "p(90)") +:+ " / "
      +:+ fmtCount (statusMetrics !! "p(99)");
    "- top codes: " +:+ top_codes w;
    "- auth error count: " +:+ fmtCount (value_of data "auth_errors" "count")
      +:+ " client: " +:+ fmtCount (value_of data "client_errors" "count")
      +:+ " server: " +:+ fmtCount (value_of data "server_errors" "count") ].

Definition scenario_line (data : SummaryData) : string :=
  "Scenario: " +:+
  match state data with
  | Some {| testRunDurationMs := Some ms |} =>
      if truthy_number ms then toFixed host (div_by ms 1000) 1 +:+ "s"
      else "n/a"
  | _ => "n/a"
  end.

Definition checks_line (data : SummaryData) : string :=
  "- status < 500: passes=" +:+ fmtCount (value_of data "checks" "passes")
  +:+ " fails=" +:+ fmtCount (value_of data "checks" "fails").

Definition sections (w : World) (data : SummaryData) : list string :=
  [ "=== k6 Summary ==="; scenario_line data; "" ]
  ++ errorsSection w data
  ++ [ "" ]
  ++ latencySection data
  ++ [ ""; "Checks"; checks_line data; "" ]
  ++ throughputSection data
  ++ [ "" ]
  ++ vusSection data
  ++ [ "" ]
  ++ statusSection w data.

(** The advisory re-check made when thresholds are not enforced. *)
Definition advisory_warnings (data : SummaryData) : M unit :=
  let failedRate := prop_of data "http_req_failed" "rate" in
  let p95 := prop_of data "http_req_duration" "p(95)" in
  (match failedRate with
   | Some r =>
       if gt r lit_0_05 then
         console_warn ("http_req_failed threshold exceeded (rate="
                       +:+ numberToString host r
                       +:+ "). Result will still be saved.")
       else ret tt
   | None => ret tt
   end) ;;;
  (match p95 with
   | Some p =>
       if gt p (ofZ 2200) then
         console_warn ("http_req_duration threshold exceeded (p95="
                       +:+ numberToString host p
                       +:+ "ms). Result will still be saved.")
       else ret tt
   | None => ret tt
   end).

Definition handleSummary (enforce : bool) (data : SummaryData) : M Summary :=
  (if negb enforce then advisory_warnings data else ret tt) ;;;
  w <- get (fun w => w) ;;
  ret {| stdout := join (String "010"%char "") (sections w data) |}.

End Reporter.

(* ===================================================================== *)
(** ** Measures and reference definitions used by the statements *)
(* ===================================================================== *)

(** [sum(statusCounts.values())]. *)
Definition total_count (m : gmap Z nat) : nat :=
  map_fold (fun _ v acc => (v + acc)%nat) 0%nat m.

Definition is_transport_failure (e : Event) : bool :=
  match e with
  | HttpRequest _ _ _ _ (Raises _) => true
  | _ => false
  end.

(** Number of transport calls that raised, read off the trace. *)
Definition transport_failures (w : World) : nat :=
  length (filter (fun e => is_transport_failure e = true) (trace w)).

Definition is_transport_call (e : Event) : bool :=
  match e with
  | HttpRequest _ _ _ _ _ => true
  | _ => false
  end.

(** Number of transport calls made. *)
Definition transport_calls (w : World) : nat :=
  length (filter (fun e => is_transport_call e = true) (trace w)).

(** Exactly the counter of [b] grew by one between [w] and [w'] (none
    did when [b] is [None]). *)
Definition counted (b : option Bucket) (w w' : World) : Prop :=
  authErrorCounter w' =
    (authErrorCounter w + match b with Some auth => 1 | _ => 0 end)%nat /\
  clientErrorCounter w' =
    (clientErrorCounter w + match b with Some client => 1 | _ => 0 end)%nat /\
  serverErrorCounter w' =
    (serverErrorCounter w + match b with Some server => 1 | _ => 0 end)%nat.

(** The capped append: a sample enters a bucket only while the bucket
    holds fewer than three. *)
Definition capped_push (l : list ErrorSample) (s : ErrorSample) : list ErrorSample :=
  if (length l <? 3)%nat then l ++ [s] else l.

(** The sample [s] was offered to bucket [b] and no other bucket changed
    (no bucket changed when [b] is [None]). *)
Definition sampled (b : option Bucket) (s : ErrorSample) (w w' : World) : Prop :=
  forall b', get_bucket b' (dataErrors w') =
             if bool_decide (b = Some b')
             then capped_push (get_bucket b' (dataErrors w)) s
             else get_bucket b' (dataErrors w).

(** The bucket named by the data model's precedence rule. *)
Definition spec_bucket (status : Z) (b : Bucket) : Prop :=
  match b with
  | auth => status = 401 \/ status = 403
  | server => ~ (status = 401 \/ status = 403) /\ (status >= 500 \/ status = 0)
  | client => ~ (status = 401 \/ status = 403) /\ ~ (status >= 500 \/ status = 0)
              /\ 400 <= status < 500
  end.

(** A finite positive number. *)
Definition finite_positive (n : number) : Prop :=
  match n with
  | Finite q => (0 < q)%Q
  | _ => False
  end.

(** A number that is neither NaN nor at most zero: what the override
    guards test. *)
Definition positive (n : number) : Prop :=
  match n with
  | Finite q => (0 < q)%Q
  | Infinity => True
  | _ => False
  end.

(** The duration format in the resolver's contract: minutes token left
    out when minutes is 0, seconds token left out only when seconds is 0
    and minutes is positive. *)
Definition spec_formatDuration (total : Z) : string :=
  let m := total / 60 in
  let s := total mod 60 in
  (if m =? 0 then "" else string_of_Z m +:+ "m")
  +:+ (if (s =? 0) && (0 <? m) then "" else string_of_Z s +:+ "s").

(** The binary64 value of the literal [7.6]. *)
Definition binary64_7_6 : Q := (8556839292003942 # 1125899906842624)%Q.

(** The text (if any) parses to a key-value mapping. *)
Definition parses_as_mapping (blob : string) : Prop :=
  exists ms, JSON.parse blob = Some (JObject ms).

(** All three sample buckets are empty. *)
Definition no_samples (w : World) : Prop :=
  de_auth (dataErrors w) = [] /\ de_client (dataErrors w) = []
  /\ de_server (dataErrors w) = [].

(** The failed rate handed to the reporter is a proportion: absent, or a
    finite number that is not negative. *)
Definition rate_is_proportion (data : SummaryData) : Prop :=
  match rateFailed data with
  | None => True
  | Some (Finite q) => (0 <= q)%Q
  | Some _ => False
  end.

Definition rate_is_zero (data : SummaryData) : Prop :=
  match rateFailed data with
  | None => True
  | Some (Finite q) => (q == 0)%Q
  | Some _ => False
  end.

Definition rate_is_nonzero (data : SummaryData) : Prop :=
  match rateFailed data with
  | Some (Finite q) => ~ (q == 0)%Q
  | Some _ => True
  | None => False
  end.

(** Environments and inputs the statements are run on. *)
Definition sample_config : Config :=
  {| targetUrl := Some "http://localhost:3000/health"; method := "GET";
     headers := JObject []; body := None |}.

Definition no_target_config : Config :=
  {| targetUrl := None; method := "GET"; headers := JObject []; body := None |}.

Definition responds (st : Z) : Transport :=
  Responds {| res_status := st; res_error := "" |}.

Definition headersEnv (blob : string) : Env :=
  {| MODE := None; CUSTOM_VUS := None; CUSTOM_DURATION_SECONDS := None;
     ENFORCE_THRESHOLDS := None; TARGET_URL := None; API_BASE_URL := None;
     HTTP_METHOD := None; HTTP_HEADERS := Some blob; HTTP_BODY := None |}.

Definition enforceEnv (flag : option string) : Env :=
  {| MODE := None; CUSTOM_VUS := None; CUSTOM_DURATION_SECONDS := None;
     ENFORCE_THRESHOLDS := flag; TARGET_URL := None; API_BASE_URL := None;
     HTTP_METHOD := None; HTTP_HEADERS := None; HTTP_BODY := None |}.

Definition failing_data (rate : Q) : SummaryData :=
  {| metrics :=
       Some {[ "http_req_failed" :=
                 {| props := ∅; values := Some {[ "rate" := Finite rate ]} |} ]};
     state := None |}.

(* ===================================================================== *)
(** ** The sibling scripts *)
(* ===================================================================== *)

(** The two properties an object spread copies out of a profile. *)
Definition profile_vus (p : Profile) : number := vus p.
Definition profile_duration (p : Profile) : string := duration p.

(** The variant of [smoke/bootstrap.ts] without metrics and summary: same
    module-level constants, thresholds always attached, and a
    [runScenario] whose transport call is not guarded. *)
Module MinimalScript.

(** Its exported [options]: there is no [summaryTrendStats] property and
    [thresholds] is always there. *)
Record Options : Type := {
  vus : number;
  duration : string;
  thresholds : Thresholds
}.

Definition options (host : Host) (env : Env) : Options :=
  let p := selectedProfile host env in
  {| vus := profile_vus p;
     duration := profile_duration p;
     thresholds := Minimal.thresholds_literal |}.

Definition runScenario (cfg : Config) (t : Transport) : M unit :=
  if negb (truthy_string (targetUrl cfg)) then
    console_log skip_notice ;;;
    sleep 1
  else
    let target := targetUrl cfg ?? "" in
    response <- http_request t (method cfg) target (body cfg) (headers cfg) ;;
    check Minimal.check_name (Minimal.check_passes (res_status response)) ;;;
    sleep 1.

Definition iterate (cfg : Config) (ts : list Transport) (w : World) : World :=
  fold_left (fun w t => snd (runScenario cfg t w)) ts w.

End MinimalScript.

(** The bundle committed as [dist/smoke/bootstrap.js]: the profile table
    has 100 virtual users for CUSTOM and the script reads no override. *)
Module DistBundle.

Definition scenarioOptions : gmap string Profile :=
  <["CUSTOM" := {| vus := ofZ 100; duration := "1m" |}]>
  (<["SPIKE" := {| vus := ofZ 10; duration := "20s" |}]>
  (<["SOAK" := {| vus := ofZ 3; duration := "2m" |}]>
  (<["STRESS" := {| vus := ofZ 5; duration := "1m" |}]>
  (<["SMOKE" := {| vus := ofZ 2; duration := "30s" |}]> ∅)))).

Definition selectedProfile (env : Env) : Profile :=
  nullish_opt (scenarioOptions !! selectedMode env) (scenarioOptions !! "SMOKE")
  ?? SMOKE_profile.

Definition options (env : Env) : MinimalScript.Options :=
  let p := selectedProfile env in
  {| MinimalScript.vus := profile_vus p;
     MinimalScript.duration := profile_duration p;
     MinimalScript.thresholds := Minimal.thresholds_literal |}.

End DistBundle.

(* ===================================================================== *)
(** ** Further measures used by the statements *)
(* ===================================================================== *)

(** The keys of the profile table. *)
Definition known_modes : list string :=
  ["SMOKE"; "STRESS"; "SOAK"; "SPIKE"; "CUSTOM"].

(** The environment with [MODE] set to [m]. *)
Definition set_MODE (m : option string) (env : Env) : Env :=
  {| MODE := m; CUSTOM_VUS := CUSTOM_VUS env;
     CUSTOM_DURATION_SECONDS := CUSTOM_DURATION_SECONDS env;
     ENFORCE_THRESHOLDS := ENFORCE_THRESHOLDS env;
     TARGET_URL := TARGET_URL env; API_BASE_URL := API_BASE_URL env;
     HTTP_METHOD := HTTP_METHOD env; HTTP_HEADERS := HTTP_HEADERS env;
     HTTP_BODY := HTTP_BODY env |}.

(** How many elements of [l] satisfy [p]. *)
Fixpoint count_where {A} (p : A -> bool) (l : list A) : nat :=
  match l with
  | [] => 0
  | x :: r => ((if p x then 1 else 0) + count_where p r)%nat
  end.

(** How many times [k] occurs in [l]. *)
Definition occurrences (k : Z) (l : list Z) : nat :=
  count_where (fun x => x =? k) l.

(** The distinct elements of [l], ordered by first occurrence. *)
Fixpoint first_seen (l : list Z) : list Z :=
  match l with
  | [] => []
  | x :: r => x :: filter (fun y => y <> x) (first_seen r)
  end.

(** The status is an error status and falls in bucket [b]. *)
Definition falls_in (b : Bucket) (st : Z) : bool :=
  ((st =? 0) || (st >=? 400)) && bool_decide (bucket_of st = b).

(** Number of recorded checks that failed. *)
Definition failed_checks (w : World) : nat :=
  count_where (fun c => negb (snd c)) (checks w).

Definition is_pause (e : Event) : bool :=
  match e with
  | Sleep _ => true
  | _ => false
  end.

(** Number of pauses in the trace. *)
Definition pauses (w : World) : nat := count_where is_pause (trace w).

(** The transport call (if this is one) was made with the configured
    method, target, body and headers. *)
Definition request_matches (cfg : Config) (e : Event) : Prop :=
  match e with
  | HttpRequest m u b h _ =>
      m = method cfg /\ u = targetUrl cfg ?? "" /\ b = body cfg
      /\ h = headers cfg
  | _ => True
  end.

(** Two worlds with the same module state and metrics (they may differ in
    their traces). *)
Definition same_aggregates (w w' : World) : Prop :=
  statusCounts w' = statusCounts w /\ statusOrder w' = statusOrder w
  /\ dataErrors w' = dataErrors w /\ statusTrend w' = statusTrend w
  /\ authErrorCounter w' = authErrorCounter w
  /\ clientErrorCounter w' = clientErrorCounter w
  /\ serverErrorCounter w' = serverErrorCounter w
  /\ checks w' = checks w.

Section AdvisoryEvents.
Variable host : Host.

(** The warnings the reporter owes for [data] when thresholds are not
    enforced. *)
Definition advisory_events (data : SummaryData) : list Event :=
  match prop_of data "http_req_failed" "rate" with
  | Some r =>
      if gt r lit_0_05
      then [ConsoleWarn ("http_req_failed threshold exceeded (rate="
                         +:+ numberToString host r
                         +:+ "). Result will still be saved.")]
      else []
  | None => []
  end
  ++
  match prop_of data "http_req_duration" "p(95)" with
  | Some p =>
      if gt p (ofZ 2200)
      then [ConsoleWarn ("http_req_duration threshold exceeded (p95="
                         +:+ numberToString host p
                         +:+ "ms). Result will still be saved.")]
      else []
  | None => []
  end.

End AdvisoryEvents.

(** What one invocation of the extended [runScenario] adds to the trace. *)
Definition invocation_events (cfg : Config) (t : Transport) : list Event :=
  [ if truthy_string (targetUrl cfg)
    then HttpRequest (method cfg) (targetUrl cfg ?? "") (body cfg) (headers cfg) t
    else ConsoleLog skip_notice;
    Sleep 1 ].

(** A request with method GET or HEAD that carries a body. *)
Definition bodied_read (e : Event) : Prop :=
  match e with
  | HttpRequest m _ (Some _) _ _ => m = "GET" \/ m = "HEAD"
  | _ => False
  end.

Definition bodyEnv (verb body : option string) : Env :=
  {| MODE := None; CUSTOM_VUS := None; CUSTOM_DURATION_SECONDS := None;
     ENFORCE_THRESHOLDS := None; TARGET_URL := Some "http://localhost:3000/items";
     API_BASE_URL := None; HTTP_METHOD := verb; HTTP_HEADERS := None;
     HTTP_BODY := body |}.

Definition targetEnv (target base : option string) : Env :=
  {| MODE := None; CUSTOM_VUS := None; CUSTOM_DURATION_SECONDS := None;
     ENFORCE_THRESHOLDS := None; TARGET_URL := target;
     API_BASE_URL := base; HTTP_METHOD := None; HTTP_HEADERS := None;
     HTTP_BODY := None |}.

(** The statuses of the responses among the transport behaviours, in
    order. *)
Fixpoint response_statuses (ts : list Transport) : list Z :=
  match ts with
  | [] => []
  | Responds r :: rest => res_status r :: response_statuses rest
  | Raises _ :: rest => response_statuses rest
  end.

(** Number of behaviours that raise. *)
Fixpoint raising (ts : list Transport) : nat :=
  match ts with
  | [] => 0
  | Raises _ :: rest => S (raising rest)
  | Responds _ :: rest => raising rest
  end.

(** The aggregates agree with each other: every count, the display order,
    the counters, the buckets and the checks are those of the recorded
    statuses and transport failures. *)
Record consistent (cfg : Config) (w : World) : Prop := {
  counts_match : forall k,
    statusCounts w !! k
    = (if (occurrences k (statusTrend w) =? 0)%nat then None
       else Some (occurrences k (statusTrend w)));
  total_matches : total_count (statusCounts w) = length (statusTrend w);
  order_matches : statusOrder w = first_seen (statusTrend w);
  counters_match : forall b,
    counter_of b w
    = (count_where (falls_in b) (statusTrend w)
       + if bool_decide (b = server) then transport_failures w else 0)%nat;
  buckets_match : forall b,
    length (get_bucket b (dataErrors w)) = Nat.min (counter_of b w) 3;
  samples_match : forall b,
    Forall (fun s => spec_bucket (status s) b /\ url s = targetUrl cfg ?? "")
           (get_bucket b (dataErrors w));
  checks_match :
    checks w = map (fun st => (check_name, check_passes st)) (statusTrend w)
}.

(** The failed rate handed to the reporter is a number greater than zero
    (plus infinity included): what the guard of the diagnostic line
    tests. *)
Definition rate_is_positive (data : SummaryData) : Prop :=
  match rateFailed data with
  | Some r => positive r
  | None => False
  end.

(** Every character of the string is an ASCII character.  On such strings
    [toUpperCase] and [toLowerCase] above are the host's. *)
Fixpoint ascii_only (s : string) : bool :=
  match s with
  | EmptyString => true
  | String c r => (nat_of_ascii c <? 128)%nat && ascii_only r
  end.

(* ===================================================================== *)
(** * Properties *)
(* ===================================================================== *)

Lemma Qlt_bool_iff x y : Qlt_bool x y = true <-> (x < y)%Q.
Proof.
  unfold Qlt_bool. rewrite negb_true_iff. split.
  - intros H. apply Qnot_le_lt. intros Hle.
    apply Qle_bool_iff in Hle. congruence.
  - intros H. destruct (Qle_bool y x) eqn:E; [|reflexivity].
    apply Qle_bool_iff in E. exfalso. exact (Qlt_not_le _ _ H E).
Qed.

(* --------------------------------------------------------------------- *)
(** ** Thresholds *)
(* --------------------------------------------------------------------- *)

Lemma enforceThresholds_spec env :
  enforceThresholds env = true <->
  exists s, ENFORCE_THRESHOLDS env = Some s /\ toLowerCase s = "true".
Proof.
  unfold enforceThresholds. rewrite String.eqb_eq. split.
  - destruct (ENFORCE_THRESHOLDS env) as [s|]; simpl; [eauto | discriminate].
  - intros (s & -> & Hs). exact Hs.
Qed.

(** C5. The options object carries the thresholds [rate<0.05] and
    [p(95)<3500] when [ENFORCE_THRESHOLDS] lower-cases to [true], and has
    no [thresholds] property otherwise; the other properties do not depend
    on the switch. *)
Theorem options_thresholds_iff_enforced (host : Host) (env : Env) :
  thresholds (options host env) =
    (if enforceThresholds env
     then Some {| http_req_failed := ["rate<0.05"];
                  http_req_duration := ["p(95)<3500"] |}
     else None)
  /\ (enforceThresholds env = true <->
      exists s, ENFORCE_THRESHOLDS env = Some s /\ toLowerCase s = "true")
  /\ (enforceThresholds env = false <-> thresholds (options host env) = None).
Proof.
  split; [reflexivity|]. split; [apply enforceThresholds_spec|].
  simpl. destruct (enforceThresholds env); split; congruence.
Qed.

Example thresholds_enforced :
  thresholds (options RefHost.host (enforceEnv (Some "TRUE")))
  = Some strict_thresholds.
Proof. reflexivity. Qed.

Example thresholds_relaxed_by_default :
  thresholds (options RefHost.host (enforceEnv None)) = None
  /\ thresholds (options RefHost.host (enforceEnv (Some "yes"))) = None.
Proof. split; reflexivity. Qed.

(* --------------------------------------------------------------------- *)
(** ** Arithmetic on numbers *)
(* --------------------------------------------------------------------- *)

Lemma gt_zero_finite q : gt (Finite q) (ofZ 0) = true <-> (0 < q)%Q.
Proof. simpl. apply Qlt_bool_iff. Qed.

(** The guard of both overrides holds exactly on the positive numbers,
    plus infinity included. *)
Lemma override_guard_iff v :
  negb (Number_isNaN v) && gt v (ofZ 0) = true <-> positive v.
Proof.
  destruct v as [| | |q]; simpl; try (split; [discriminate | tauto]);
    [tauto | apply Qlt_bool_iff].
Qed.

Lemma override_guard_false v :
  negb (Number_isNaN v) && gt v (ofZ 0) = false <-> ~ positive v.
Proof.
  rewrite <- override_guard_iff. destruct (negb _ && _); split; congruence.
Qed.

Lemma round_half_up_nonpositive q : (q <= 0)%Q -> round_half_up q <= 0.
Proof.
  intros Hq. unfold round_half_up.
  change 0 with (Qfloor (0 + (1 # 2))). apply Qfloor_resp_le.
  apply Qplus_le_compat; [exact Hq | apply Qle_refl].
Qed.

Lemma round_half_up_nonnegative q : (0 <= q)%Q -> 0 <= round_half_up q.
Proof.
  intros Hq. unfold round_half_up.
  change 0 with (Qfloor (0 + 0)). apply Qfloor_resp_le.
  apply Qplus_le_compat; [exact Hq | discriminate].
Qed.

(* --------------------------------------------------------------------- *)
(** ** The CUSTOM profile after the overrides *)
(* --------------------------------------------------------------------- *)

Lemma scenarioOptions_CUSTOM host env :
  scenarioOptions host env !! "CUSTOM" =
  Some {| vus :=
            if negb (Number_isNaN (customVusOverride host env))
               && gt (customVusOverride host env) (ofZ 0)
            then Math_round (customVusOverride host env) else ofZ 20;
          duration :=
            if negb (Number_isNaN (customDurationOverride host env))
               && gt (customDurationOverride host env) (ofZ 0)
            then formatDurationSeconds host
                   (Math_round (customDurationOverride host env))
            else "1m" |}.
Proof.
  unfold scenarioOptions, apply_duration_override, apply_vus_override.
  destruct (negb (Number_isNaN (customDurationOverride host env)) && _);
    destruct (negb (Number_isNaN (customVusOverride host env)) && _);
    rewrite ?lookup_alter_eq; reflexivity.
Qed.

(** The SMOKE profile is never reassigned, so the fallback of the mode
    lookup is always defined. *)
Lemma scenarioOptions_SMOKE host env :
  scenarioOptions host env !! "SMOKE" = Some SMOKE_profile.
Proof.
  unfold scenarioOptions, apply_duration_override, apply_vus_override.
  destruct (negb (Number_isNaN (customDurationOverride host env)) && _);
    destruct (negb (Number_isNaN (customVusOverride host env)) && _);
    rewrite ?lookup_alter_ne by discriminate; reflexivity.
Qed.

Lemma selectedProfile_CUSTOM host env :
  selectedMode env = "CUSTOM" ->
  Some (selectedProfile host env) = scenarioOptions host env !! "CUSTOM".
Proof.
  intros Hm. unfold selectedProfile. rewrite Hm, scenarioOptions_CUSTOM.
  reflexivity.
Qed.

Lemma custom_vus host env :
  selectedMode env = "CUSTOM" ->
  opt_vus (options host env) =
  if negb (Number_isNaN (customVusOverride host env))
     && gt (customVusOverride host env) (ofZ 0)
  then Math_round (customVusOverride host env) else ofZ 20.
Proof.
  intros Hm. pose proof (selectedProfile_CUSTOM host env Hm) as H.
  rewrite scenarioOptions_CUSTOM in H. injection H as H.
  unfold options. simpl. rewrite H. reflexivity.
Qed.

Lemma custom_duration host env :
  selectedMode env = "CUSTOM" ->
  opt_duration (options host env) =
  if negb (Number_isNaN (customDurationOverride host env))
     && gt (customDurationOverride host env) (ofZ 0)
  then formatDurationSeconds host (Math_round (customDurationOverride host env))
  else "1m".
Proof.
  intros Hm. pose proof (selectedProfile_CUSTOM host env Hm) as H.
  rewrite scenarioOptions_CUSTOM in H. injection H as H.
  unfold options. simpl. rewrite H. reflexivity.
Qed.

Lemma rounded_is_not_default v : ~ positive v -> Math_round v <> ofZ 20.
Proof.
  destruct v as [| | |q]; simpl; intros Hn; try discriminate.
  intros H. injection H as H.
  assert (q <= 0)%Q as Hq by (apply Qnot_lt_le; exact Hn).
  apply round_half_up_nonpositive in Hq. lia.
Qed.

(** C6 (as the code has it).  In mode CUSTOM the resolved concurrency is
    [Math.round] of the [CUSTOM_VUS] override exactly when the override is
    a number greater than zero, plus infinity included; for every other
    override (absent, NaN, zero, negative, minus infinity) it stays 20.
    The resolver is a total function: no error can be raised. *)
Theorem custom_vus_override (host : Host) (env : Env) :
  selectedMode env = "CUSTOM" ->
  let v := customVusOverride host env in
  let resolved := opt_vus (options host env) in
  (resolved = Math_round v <-> positive v)
  /\ (~ positive v -> resolved = ofZ 20)
  /\ (forall q, v = Finite q -> (0 < q)%Q -> resolved = ofZ (round_half_up q))
  /\ (v = Infinity -> resolved = Infinity)
  /\ (CUSTOM_VUS env = None -> resolved = ofZ 20)
  /\ (v = Finite binary64_7_6 \/ v = Finite (76 # 10) -> resolved = ofZ 8).
Proof.
  intros Hm v resolved.
  assert (Hpos : positive v -> resolved = Math_round v).
  { intros Hp. subst resolved. rewrite custom_vus by exact Hm.
    apply override_guard_iff in Hp. fold v. rewrite Hp. reflexivity. }
  assert (Hneg : ~ positive v -> resolved = ofZ 20).
  { intros Hp. subst resolved. rewrite custom_vus by exact Hm.
    apply override_guard_false in Hp. fold v. rewrite Hp. reflexivity. }
  repeat split.
  - intros Heq. destruct (override_guard_iff v) as [Hg _].
    destruct (negb (Number_isNaN v) && gt v (ofZ 0)) eqn:E; [auto|].
    apply override_guard_false in E. rewrite (Hneg E) in Heq.
    symmetry in Heq. exfalso. exact (rounded_is_not_default v E Heq).
  - exact Hpos.
  - exact Hneg.
  - intros q Hv Hq. rewrite Hpos; rewrite Hv; [reflexivity | exact Hq].
  - intros Hv. rewrite Hpos; rewrite Hv; [reflexivity | exact I].
  - intros Hnone. apply Hneg. subst v. unfold customVusOverride.
    rewrite Hnone. simpl. intros H. discriminate H.
  - intros [Hv | Hv]; rewrite Hpos; rewrite Hv; reflexivity.
Qed.

Lemma custom_vus_override_witness :
  selectedMode (customEnv (Some "7.6") None) = "CUSTOM"
  /\ customVusOverride RefHost.host (customEnv (Some "7.6") None) = Finite (76 # 10)
  /\ opt_vus (options RefHost.host (customEnv (Some "7.6") None)) = ofZ 8.
Proof.
  split; [reflexivity|]. split; [reflexivity|].
  apply (custom_vus_override RefHost.host (customEnv (Some "7.6") None)
           eq_refl).
  right. reflexivity.
Defined.

(** C6 does not hold as stated: the override [Infinity] is not a finite
    positive number, yet in mode CUSTOM the resolved concurrency is
    [Infinity], not the default 20. *)
Lemma infinite_vus_override_is_applied :
  selectedMode (customEnv (Some "Infinity") None) = "CUSTOM"
  /\ customVusOverride RefHost.host (customEnv (Some "Infinity") None) = Infinity
  /\ ~ finite_positive
         (customVusOverride RefHost.host (customEnv (Some "Infinity") None))
  /\ opt_vus (options RefHost.host (customEnv (Some "Infinity") None)) = Infinity
  /\ opt_vus (options RefHost.host (customEnv (Some "Infinity") None)) <> ofZ 20.
Proof.
  split; [reflexivity|]. split; [reflexivity|].
  split; [vm_compute; tauto|]. split; [reflexivity|].
  vm_compute. discriminate.
Qed.

(* --------------------------------------------------------------------- *)
(** ** Duration formatting *)
(* --------------------------------------------------------------------- *)

Lemma append_empty_r (s : string) : s +:+ "" = s.
Proof.
  induction s as [|c s IH]; [reflexivity|].
  change (String c (s +:+ "") = String c s). f_equal. exact IH.
Qed.

(** A rational equal to an integer prints, floors and compares as that
    integer. *)
Section IntegralValues.
Variable host : Host.
Variables (x : Q) (k : Z).
Hypothesis Hx : (x == inject_Z k)%Q.

Lemma integral_is_integral : is_integral x = true.
Proof.
  unfold is_integral. apply Z.eqb_eq.
  unfold Qeq in Hx. simpl in Hx. rewrite Z.mul_1_r in Hx. rewrite Hx.
  apply Z.mod_mul. discriminate.
Qed.

Lemma integral_floor : Qfloor x = k.
Proof. rewrite Hx. apply Qfloor_Z. Qed.

Lemma integral_gt_zero : gt (Finite x) (ofZ 0) = (0 <? k).
Proof.
  simpl. destruct (0 <? k) eqn:E.
  - apply Qlt_bool_iff. rewrite Hx. apply Z.ltb_lt in E.
    unfold Qlt. simpl. lia.
  - apply Z.ltb_ge in E. destruct (Qlt_bool (inject_Z 0) x) eqn:F; [|reflexivity].
    apply Qlt_bool_iff in F. rewrite Hx in F. unfold Qlt in F. simpl in F. lia.
Qed.

Lemma integral_toString :
  Z.abs k <= MAX_SAFE_INTEGER ->
  numberToString host (Finite x) = string_of_Z k.
Proof.
  intros Hk. unfold numberToString.
  rewrite integral_is_integral, integral_floor.
  apply Z.leb_le in Hk. rewrite Hk. reflexivity.
Qed.

End IntegralValues.

Lemma Math_max_one z : Math_max (ofZ 1) (ofZ z) = ofZ (Z.max 1 z).
Proof.
  unfold Math_max, ofZ. simpl.
  destruct (Qlt_bool (inject_Z 1) (inject_Z z)) eqn:E.
  - apply Qlt_bool_iff in E. unfold Qlt in E. simpl in E.
    f_equal. f_equal. lia.
  - f_equal. f_equal.
    destruct (Z.max_spec 1 z) as [[Hlt ->]|[_ ->]]; [|reflexivity].
    exfalso. assert (Qlt_bool (inject_Z 1) (inject_Z z) = true) as F.
    { apply Qlt_bool_iff. unfold Qlt. simpl. lia. }
    congruence.
Qed.

Lemma floor_div_60 s : Qfloor (inject_Z s / 60)%Q = s / 60.
Proof. unfold Qfloor, Qdiv, Qmult, Qinv, inject_Z. simpl. now rewrite Z.mul_1_r. Qed.

Lemma trunc_div_60 s : 0 <= s -> Qtrunc (inject_Z s / 60)%Q = s / 60.
Proof.
  intros Hs. unfold Qtrunc.
  destruct (Qlt_bool (inject_Z s / 60) 0) eqn:E.
  - apply Qlt_bool_iff in E. unfold Qlt, Qdiv, Qmult, Qinv, inject_Z in E.
    simpl in E. lia.
  - apply floor_div_60.
Qed.

Lemma rem_60_integral s :
  0 <= s ->
  (inject_Z s - 60 * inject_Z (Qtrunc (inject_Z s / 60)) == inject_Z (s mod 60))%Q.
Proof.
  intros Hs. rewrite trunc_div_60 by exact Hs.
  unfold Qeq, Qminus, Qplus, Qopp, Qmult, inject_Z. simpl.
  pose proof (Z.div_mod s 60 ltac:(discriminate)) as Hdm. lia.
Qed.

Lemma minutes_of_seconds s : Math_floor (div_by (ofZ s) 60) = ofZ (s / 60).
Proof. unfold Math_floor, div_by, ofZ. now rewrite floor_div_60. Qed.

(** On an integral number of seconds within the safe-integer range the
    code prints what the contract's format prints for [max(1, seconds)]. *)
Lemma formatDurationSeconds_integral host z :
  Z.max 1 z <= MAX_SAFE_INTEGER ->
  formatDurationSeconds host (ofZ z) = spec_formatDuration (Z.max 1 z).
Proof.
  intros Hsafe. unfold formatDurationSeconds. cbv zeta.
  rewrite Math_max_one. set (s := Z.max 1 z) in *.
  assert (Hs : 1 <= s) by (subst s; lia).
  assert (Hm : 0 <= s / 60 <= s).
  { split; [apply Z.div_pos; lia|].
    apply Z.div_le_upper_bound; lia. }
  assert (H60 : 60 <= MAX_SAFE_INTEGER) by (vm_compute; discriminate).
  assert (Hr : 0 <= s mod 60 < 60) by (apply Z.mod_pos_bound; lia).
  rewrite minutes_of_seconds.
  change (rem_by (ofZ s) 60)
    with (Finite (inject_Z s - 60 * inject_Z (Qtrunc (inject_Z s / 60)))%Q).
  set (rq := (inject_Z s - 60 * inject_Z (Qtrunc (inject_Z s / 60)))%Q).
  assert (Hrq : (rq == inject_Z (s mod 60))%Q)
    by (subst rq; apply rem_60_integral; lia).
  change (ofZ (s / 60)) with (Finite (inject_Z (s / 60))).
  rewrite (integral_gt_zero (inject_Z (s / 60)) (s / 60) ltac:(reflexivity)).
  rewrite (integral_gt_zero rq (s mod 60) Hrq).
  rewrite (integral_toString host rq (s mod 60) Hrq) by lia.
  rewrite (integral_toString host (inject_Z (s / 60)) (s / 60) ltac:(reflexivity))
    by lia.
  unfold spec_formatDuration.
  destruct (0 <? s / 60) eqn:Em; destruct (0 <? s mod 60) eqn:Es; simpl.
  - apply Z.ltb_lt in Em, Es.
    destruct (s / 60 =? 0) eqn:E1; [apply Z.eqb_eq in E1; lia|].
    destruct (s mod 60 =? 0) eqn:E2; [apply Z.eqb_eq in E2; lia|].
    reflexivity.
  - apply Z.ltb_lt in Em. apply Z.ltb_ge in Es.
    destruct (s / 60 =? 0) eqn:E1; [apply Z.eqb_eq in E1; lia|].
    destruct (s mod 60 =? 0) eqn:E2; [|apply Z.eqb_neq in E2; lia].
    simpl. now rewrite append_empty_r.
  - apply Z.ltb_ge in Em. apply Z.ltb_lt in Es.
    destruct (s / 60 =? 0) eqn:E1; [|apply Z.eqb_neq in E1; lia].
    destruct (s mod 60 =? 0) eqn:E2; [apply Z.eqb_eq in E2; lia|].
    reflexivity.
  - apply Z.ltb_ge in Em, Es.
    destruct (s / 60 =? 0) eqn:E1; [|apply Z.eqb_neq in E1; lia].
    rewrite andb_false_r. reflexivity.
Qed.

(** C7 (as the code has it).  In mode CUSTOM with a finite positive
    duration override of [q] seconds, rounding to at most
    [Number.MAX_SAFE_INTEGER], the resolved duration is the contract's
    format of [max(1, round(q))]: the minutes token is left out when
    minutes is 0, the seconds token is left out only when seconds is 0 and
    minutes is positive.  Overrides of 125, 60 and 45 seconds give
    [2m5s], [1m] and [45s]. *)
Theorem custom_duration_override (host : Host) (env : Env) (q : Q) :
  selectedMode env = "CUSTOM" ->
  customDurationOverride host env = Finite q ->
  (0 < q)%Q ->
  round_half_up q <= MAX_SAFE_INTEGER ->
  opt_duration (options host env)
  = spec_formatDuration (Z.max 1 (round_half_up q))
  /\ (q = inject_Z 125 -> opt_duration (options host env) = "2m5s")
  /\ (q = inject_Z 60 -> opt_duration (options host env) = "1m")
  /\ (q = inject_Z 45 -> opt_duration (options host env) = "45s").
Proof.
  intros Hm Hd Hq Hsafe.
  assert (H : opt_duration (options host env)
              = spec_formatDuration (Z.max 1 (round_half_up q))).
  { rewrite custom_duration by exact Hm. rewrite Hd.
    assert (Hg : negb (Number_isNaN (Finite q)) && gt (Finite q) (ofZ 0) = true)
      by (apply override_guard_iff; exact Hq).
    rewrite Hg. simpl Math_round.
    apply formatDurationSeconds_integral.
    unfold MAX_SAFE_INTEGER in *. lia. }
  split; [exact H|].
  repeat split; intros ->; rewrite H; reflexivity.
Qed.

Lemma custom_duration_override_witness :
  selectedMode (customEnv None (Some "125")) = "CUSTOM"
  /\ customDurationOverride RefHost.host (customEnv None (Some "125"))
     = Finite (inject_Z 125)
  /\ (0 < inject_Z 125)%Q
  /\ round_half_up (inject_Z 125) <= MAX_SAFE_INTEGER
  /\ opt_duration (options RefHost.host (customEnv None (Some "125"))) = "2m5s".
Proof.
  split; [reflexivity|]. split; [reflexivity|]. split; [reflexivity|].
  split; [vm_compute; discriminate|].
  apply (custom_duration_override RefHost.host (customEnv None (Some "125"))
           (inject_Z 125) eq_refl eq_refl eq_refl).
  - vm_compute. discriminate.
  - reflexivity.
Defined.

(** C7 does not hold as stated: for the finite positive override 0.3 the
    code formats [max(1, round(0.3)) = 1], not [round(0.3) = 0]. *)
Lemma short_duration_is_clamped :
  finite_positive
    (customDurationOverride RefHost.host (customEnv None (Some "0.3")))
  /\ customDurationOverride RefHost.host (customEnv None (Some "0.3"))
     = Finite (3 # 10)
  /\ opt_duration (options RefHost.host (customEnv None (Some "0.3"))) = "1s"
  /\ spec_formatDuration (round_half_up (3 # 10)) = "0s"
  /\ opt_duration (options RefHost.host (customEnv None (Some "0.3")))
     <> spec_formatDuration (round_half_up (3 # 10)).
Proof.
  split; [reflexivity|]. split; [reflexivity|]. split; [reflexivity|].
  split; [reflexivity|]. vm_compute. discriminate.
Qed.

(* --------------------------------------------------------------------- *)
(** ** Header resolution *)
(* --------------------------------------------------------------------- *)

(** Header resolution always completes normally. *)
Lemma resolve_headers_completes env w :
  exists v w', resolve_headers env w = (Normal v, w').
Proof.
  unfold resolve_headers, try_catch, JSON_parse.
  destruct (truthy_string (HTTP_HEADERS env)); [|eexists _, _; reflexivity].
  destruct (JSON.parse (HTTP_HEADERS env ?? "")); eexists _, _; reflexivity.
Qed.

(** A blob [JSON.parse] accepts becomes the headers as it is, whatever its
    shape, and nothing is logged. *)
Lemma parsed_headers_are_kept env blob v w :
  HTTP_HEADERS env = Some blob -> blob <> "" ->
  JSON.parse blob = Some v ->
  resolve_headers env w = (Normal v, w).
Proof.
  intros Hh Hne Hp. unfold resolve_headers, try_catch, JSON_parse.
  rewrite Hh. destruct blob; [congruence|]. simpl. rewrite Hp. reflexivity.
Qed.

(** C8 (as the code has it).  For every non-empty [HTTP_HEADERS] blob on
    which [JSON.parse] throws, such as [{not json], header resolution
    yields the empty mapping, logs one warning and completes normally; so
    does the evaluation of the request constants. *)
Theorem malformed_headers_fall_back (env : Env) (blob : string) (w : World) :
  HTTP_HEADERS env = Some blob ->
  blob <> "" ->
  JSON.parse blob = None ->
  resolve_headers env w
  = (Normal (JObject []),
     with_trace (fun t => t ++ [ConsoleWarn headers_warning]) w)
  /\ (exists cfg w',
        load_config env w = (Normal cfg, w')
        /\ headers cfg = JObject []
        /\ trace w' = trace w ++ [ConsoleWarn headers_warning])
  /\ JSON.parse "{not json" = None.
Proof.
  intros Hh Hne Hp.
  assert (H : resolve_headers env w
              = (Normal (JObject []),
                 with_trace (fun t => t ++ [ConsoleWarn headers_warning]) w)).
  { unfold resolve_headers, try_catch, JSON_parse.
    rewrite Hh. destruct blob; [congruence|]. simpl. rewrite Hp. reflexivity. }
  split; [exact H|]. split; [|reflexivity].
  unfold load_config, bind. rewrite H.
  eexists _, _. split; [reflexivity|]. split; reflexivity.
Qed.

Lemma malformed_headers_fall_back_witness :
  HTTP_HEADERS (headersEnv "{not json") = Some "{not json"
  /\ "{not json" <> ""
  /\ JSON.parse "{not json" = None
  /\ resolve_headers (headersEnv "{not json") initial_world
     = (Normal (JObject []),
        with_trace (fun t => t ++ [ConsoleWarn headers_warning]) initial_world).
Proof.
  split; [reflexivity|]. split; [discriminate|]. split; [reflexivity|].
  apply (malformed_headers_fall_back (headersEnv "{not json") "{not json"
           initial_world eq_refl);
    [discriminate | reflexivity].
Defined.

(** C8 does not hold as stated: the blob [42] is present and does not
    parse to a key-value mapping, yet the headers become the number 42
    instead of the empty mapping, and no warning is logged. *)
Lemma numeric_headers_blob_is_kept :
  truthy_string (HTTP_HEADERS (headersEnv "42")) = true
  /\ ~ parses_as_mapping "42"
  /\ resolve_headers (headersEnv "42") initial_world
     = (Normal (JNumber "42"), initial_world)
  /\ fst (resolve_headers (headersEnv "42") initial_world) <> Normal (JObject [])
  /\ ~ In (ConsoleWarn headers_warning)
          (trace (snd (resolve_headers (headersEnv "42") initial_world))).
Proof.
  split; [reflexivity|]. split.
  { intros [ms Hms]. vm_compute in Hms. discriminate Hms. }
  split; [reflexivity|]. split; [vm_compute; discriminate|].
  vm_compute. tauto.
Qed.

Example headers_object_is_parsed :
  JSON.parse (String "{" (String JSON.quote ("a" +:+ String JSON.quote
                (":" +:+ String JSON.quote ("b" +:+ String JSON.quote "}")))))
  = Some (JObject [("a", JString "b")]).
Proof. reflexivity. Qed.

(* --------------------------------------------------------------------- *)
(** ** One invocation of [runScenario] *)
(* --------------------------------------------------------------------- *)

(** No target: a notice, a pause, nothing else. *)
Lemma runScenario_skips cfg t w :
  truthy_string (targetUrl cfg) = false ->
  runScenario cfg t w
  = (Normal tt,
     with_trace (fun tr => tr ++ [Sleep 1])
       (with_trace (fun tr => tr ++ [ConsoleLog skip_notice]) w)).
Proof. intros H. unfold runScenario. rewrite H. reflexivity. Qed.

(** The sample recorded for a transport failure. *)
Lemma runScenario_raises cfg e w :
  truthy_string (targetUrl cfg) = true ->
  let target := targetUrl cfg ?? "" in
  let sample := {| status := 0;
                   message := thrown_message e ?? "request threw";
                   url := target |} in
  let w' := snd (runScenario cfg (Raises e) w) in
  fst (runScenario cfg (Raises e) w) = Normal tt
  /\ statusCounts w' = statusCounts w
  /\ statusOrder w' = statusOrder w
  /\ statusTrend w' = statusTrend w
  /\ checks w' = checks w
  /\ counted (Some server) w w'
  /\ sampled (Some server) sample w w'
  /\ trace w' = trace w
                ++ [HttpRequest (method cfg) target (body cfg) (headers cfg)
                      (Raises e); Sleep 1].
Proof.
  intros H. unfold runScenario. rewrite H. simpl.
  repeat split; try reflexivity.
  - simpl. lia.
  - simpl. lia.
  - intros []; reflexivity.
  - simpl. rewrite <- app_assoc. reflexivity.
Qed.

(** The effect of a response. *)
Lemma runScenario_responds cfg r w :
  truthy_string (targetUrl cfg) = true ->
  let target := targetUrl cfg ?? "" in
  let st := res_status r in
  let sample := {| status := st; message := http_message r; url := target |} in
  let hit := if (st =? 0) || (st >=? 400) then Some (bucket_of st) else None in
  let w' := snd (runScenario cfg (Responds r) w) in
  fst (runScenario cfg (Responds r) w) = Normal tt
  /\ statusCounts w'
     = <[st := (nullish (statusCounts w !! st) 0 + 1)%nat]> (statusCounts w)
  /\ statusOrder w'
     = (if bool_decide (st ∈ statusOrder w) then statusOrder w
        else statusOrder w ++ [st])
  /\ statusTrend w' = statusTrend w ++ [st]
  /\ checks w' = checks w ++ [(check_name, check_passes st)]
  /\ counted hit w w'
  /\ sampled hit sample w w'
  /\ trace w' = trace w
                ++ [HttpRequest (method cfg) target (body cfg) (headers cfg)
                      (Responds r); Sleep 1].
Proof.
  intros H. unfold runScenario. rewrite H. unfold on_response.
  cbv [bind try_catch http_request emit modify ret check get counter_add sleep
       record_sample snd fst].
  destruct ((res_status r =? 0) || (res_status r >=? 400)) eqn:E; simpl;
    rewrite ?E; simpl.
  - repeat split; try reflexivity.
    + destruct (bucket_of (res_status r)); simpl; lia.
    + destruct (bucket_of (res_status r)); simpl; lia.
    + destruct (bucket_of (res_status r)); simpl; lia.
    + intros b'. destruct (bucket_of (res_status r)), b'; reflexivity.
    + rewrite <- app_assoc. reflexivity.
  - repeat split; try reflexivity; try (simpl; lia).
    rewrite <- app_assoc. reflexivity.
Qed.

(* --------------------------------------------------------------------- *)
(** ** Counting *)
(* --------------------------------------------------------------------- *)

Lemma total_count_insert_fresh (m : gmap Z nat) k v :
  m !! k = None -> total_count (<[k := v]> m) = (v + total_count m)%nat.
Proof.
  intros Hk. unfold total_count.
  apply (map_fold_insert_L (fun _ v acc => (v + acc)%nat)); [|exact Hk].
  intros. lia.
Qed.

Lemma total_count_delete (m : gmap Z nat) k v :
  m !! k = Some v -> total_count m = (v + total_count (delete k m))%nat.
Proof.
  intros Hk. unfold total_count.
  apply (map_fold_delete_L (fun _ v acc => (v + acc)%nat)); [|exact Hk].
  intros. lia.
Qed.

(** [statusCounts[k] = (statusCounts[k] ?? 0) + 1] adds one to the sum. *)
Lemma total_count_bump (m : gmap Z nat) k :
  total_count (<[k := (nullish (m !! k) 0 + 1)%nat]> m) = (total_count m + 1)%nat.
Proof.
  destruct (m !! k) as [v|] eqn:Hk; simpl.
  - rewrite <- insert_delete_eq.
    rewrite total_count_insert_fresh by apply lookup_delete_eq.
    rewrite (total_count_delete m k v Hk). lia.
  - rewrite total_count_insert_fresh by exact Hk. lia.
Qed.

Lemma transport_failures_app w w' l :
  trace w' = trace w ++ l ->
  transport_failures w'
  = (transport_failures w
     + length (filter (fun e => is_transport_failure e = true) l))%nat.
Proof.
  intros H. unfold transport_failures. rewrite H, filter_app, length_app.
  reflexivity.
Qed.

Lemma transport_calls_app w w' l :
  trace w' = trace w ++ l ->
  transport_calls w'
  = (transport_calls w
     + length (filter (fun e => is_transport_call e = true) l))%nat.
Proof.
  intros H. unfold transport_calls. rewrite H, filter_app, length_app.
  reflexivity.
Qed.

(** With a target, one invocation adds one to the sum of [statusCounts] or
    one to the number of failed transport calls, never both. *)
Lemma invocation_is_accounted cfg t w :
  truthy_string (targetUrl cfg) = true ->
  let w' := snd (runScenario cfg t w) in
  (total_count (statusCounts w') + transport_failures w'
   = total_count (statusCounts w) + transport_failures w + 1)%nat
  /\ transport_calls w' = (transport_calls w + 1)%nat.
Proof.
  intros H. destruct t as [r|e]; simpl.
  - destruct (runScenario_responds cfg r w H)
      as (_ & Hc & _ & _ & _ & _ & _ & Ht).
    rewrite Hc, total_count_bump.
    rewrite (transport_failures_app _ _ _ Ht), (transport_calls_app _ _ _ Ht).
    simpl. lia.
  - destruct (runScenario_raises cfg e w H)
      as (_ & Hc & _ & _ & _ & _ & _ & Ht).
    rewrite Hc.
    rewrite (transport_failures_app _ _ _ Ht), (transport_calls_app _ _ _ Ht).
    simpl. lia.
Qed.

Lemma iterate_cons cfg t ts w :
  iterate cfg (t :: ts) w = iterate cfg ts (snd (runScenario cfg t w)).
Proof. reflexivity. Qed.

Lemma iterate_accounts cfg ts : forall w,
  truthy_string (targetUrl cfg) = true ->
  (total_count (statusCounts (iterate cfg ts w))
   + transport_failures (iterate cfg ts w)
   = total_count (statusCounts w) + transport_failures w + length ts)%nat
  /\ transport_calls (iterate cfg ts w) = (transport_calls w + length ts)%nat.
Proof.
  induction ts as [|t ts IH]; intros w H.
  - simpl. split; lia.
  - rewrite iterate_cons.
    destruct (IH (snd (runScenario cfg t w)) H) as [IH1 IH2].
    destruct (invocation_is_accounted cfg t w H) as [H1 H2].
    simpl in H1, H2. rewrite IH1, IH2, H1, H2. simpl. split; lia.
Qed.

(** C1 (as the code has it).  With a target URL configured, after any
    sequence of N invocations from the initial state the sum of the values
    of [statusCounts] plus the number of transport calls that raised is N;
    each such invocation makes one transport call, and either adds exactly
    one to the entry of the response's status and leaves every other entry
    alone, or is a transport failure that leaves [statusCounts] alone. *)
Theorem status_counts_account_for_invocations (cfg : Config) (ts : list Transport) :
  truthy_string (targetUrl cfg) = true ->
  (total_count (statusCounts (iterate cfg ts initial_world))
   + transport_failures (iterate cfg ts initial_world) = length ts)%nat
  /\ transport_calls (iterate cfg ts initial_world) = length ts
  /\ (forall r w,
        let w' := snd (runScenario cfg (Responds r) w) in
        statusCounts w' !! res_status r
        = Some (nullish (statusCounts w !! res_status r) 0 + 1)%nat
        /\ (forall k, k <> res_status r ->
                      statusCounts w' !! k = statusCounts w !! k)
        /\ transport_failures w' = transport_failures w)
  /\ (forall e w,
        let w' := snd (runScenario cfg (Raises e) w) in
        statusCounts w' = statusCounts w
        /\ transport_failures w' = S (transport_failures w)).
Proof.
  intros H. destruct (iterate_accounts cfg ts initial_world H) as [H1 H2].
  split; [exact H1|]. split; [exact H2|]. split.
  - intros r w w'.
    destruct (runScenario_responds cfg r w H)
      as (_ & Hc & _ & _ & _ & _ & _ & Ht).
    subst w'. rewrite Hc. split; [apply lookup_insert_eq|]. split.
    + intros k Hk. apply lookup_insert_ne. congruence.
    + rewrite (transport_failures_app _ _ _ Ht). simpl. lia.
  - intros e w w'.
    destruct (runScenario_raises cfg e w H)
      as (_ & Hc & _ & _ & _ & _ & _ & Ht).
    subst w'. split; [exact Hc|].
    rewrite (transport_failures_app _ _ _ Ht). simpl. lia.
Qed.

Lemma status_counts_account_for_invocations_witness :
  truthy_string (targetUrl sample_config) = true
  /\ (total_count
        (statusCounts
           (iterate sample_config
              [responds 200; Raises {| thrown_message := Some "EOF" |};
               responds 503] initial_world))
      + transport_failures
          (iterate sample_config
             [responds 200; Raises {| thrown_message := Some "EOF" |};
              responds 503] initial_world) = 3)%nat.
Proof.
  split; [reflexivity|].
  apply (status_counts_account_for_invocations sample_config
           [responds 200; Raises {| thrown_message := Some "EOF" |};
            responds 503] eq_refl).
Defined.

(** C1 does not hold as stated: with no target URL configured an
    invocation is a skip, which adds nothing to [statusCounts] and calls
    no transport, so after one invocation the sum is 0, not 1. *)
Lemma skipped_invocations_are_not_counted :
  truthy_string (targetUrl no_target_config) = false
  /\ trace (iterate no_target_config [responds 200] initial_world)
     = [ConsoleLog skip_notice; Sleep 1]
  /\ total_count (statusCounts (iterate no_target_config [responds 200] initial_world))
     = 0%nat
  /\ transport_failures (iterate no_target_config [responds 200] initial_world)
     = 0%nat
  /\ (total_count (statusCounts (iterate no_target_config [responds 200] initial_world))
      + transport_failures (iterate no_target_config [responds 200] initial_world)
      <> length [responds 200])%nat.
Proof.
  split; [reflexivity|]. split; [reflexivity|]. split; [reflexivity|].
  split; [reflexivity|]. vm_compute. discriminate.
Qed.

(* --------------------------------------------------------------------- *)
(** ** Classification *)
(* --------------------------------------------------------------------- *)

Lemma bucket_of_spec st :
  st = 0 \/ st >= 400 -> spec_bucket st (bucket_of st).
Proof.
  intros H. unfold bucket_of.
  destruct (Z.eqb_spec st 401); [subst; simpl; auto|].
  destruct (Z.eqb_spec st 403); [subst; simpl; auto|].
  simpl. destruct (Z.geb_spec st 500).
  - simpl. split; [lia | left; lia].
  - destruct (Z.eqb_spec st 0); simpl.
    + split; [lia | right; assumption].
    + repeat split; lia.
Qed.

Lemma spec_bucket_unique st b :
  spec_bucket st b -> (st = 0 \/ st >= 400) /\ bucket_of st = b.
Proof.
  unfold bucket_of. destruct b; simpl.
  - intros [-> | ->]; split; try reflexivity; right; lia.
  - intros (Ha & Hs & Hr). split; [right; lia|].
    destruct (Z.eqb_spec st 401); [lia|].
    destruct (Z.eqb_spec st 403); [lia|]. simpl.
    destruct (Z.geb_spec st 500); [lia|].
    destruct (Z.eqb_spec st 0); [lia|]. reflexivity.
  - intros (Ha & Hs). split; [lia|].
    destruct (Z.eqb_spec st 401); [lia|].
    destruct (Z.eqb_spec st 403); [lia|]. simpl.
    destruct (Z.geb_spec st 500); [reflexivity|].
    destruct (Z.eqb_spec st 0); [reflexivity | lia].
Qed.

Lemma error_status_test st :
  (st =? 0) || (st >=? 400) = true <-> st = 0 \/ st >= 400.
Proof.
  rewrite orb_true_iff, Z.eqb_eq, Z.geb_le. lia.
Qed.

Lemma error_status_test_false st :
  (st =? 0) || (st >=? 400) = false <-> ~ (st = 0 \/ st >= 400).
Proof.
  rewrite <- error_status_test.
  destruct ((st =? 0) || (st >=? 400)); split; congruence.
Qed.

(** C2.  A response whose status is 0 or at least 400 falls in the one
    bucket the precedence rule names (401 and 403: auth; otherwise 500 and
    above, or 0: server; otherwise 400 to 499: client): that bucket's
    counter grows by one, the other two counters stay, and the sample is
    offered to that bucket only.  A response with a status strictly
    between 0 and 400 touches no counter and no bucket.  A transport
    failure counts as server. *)
Theorem responses_are_classified_by_precedence
    (cfg : Config) (r : Response) (w : World) :
  truthy_string (targetUrl cfg) = true ->
  let st := res_status r in
  let w' := snd (runScenario cfg (Responds r) w) in
  let sample :=
    {| status := st; message := http_message r; url := targetUrl cfg ?? "" |} in
  (st = 0 \/ st >= 400 ->
     spec_bucket st (bucket_of st)
     /\ counted (Some (bucket_of st)) w w'
     /\ sampled (Some (bucket_of st)) sample w w')
  /\ (forall b, spec_bucket st b -> (st = 0 \/ st >= 400) /\ bucket_of st = b)
  /\ (0 < st < 400 -> counted None w w' /\ sampled None sample w w')
  /\ (forall e,
        counted (Some server) w (snd (runScenario cfg (Raises e) w))
        /\ sampled (Some server)
             {| status := 0; message := thrown_message e ?? "request threw";
                url := targetUrl cfg ?? "" |}
             w (snd (runScenario cfg (Raises e) w))).
Proof.
  intros H st w' sample.
  destruct (runScenario_responds cfg r w H)
    as (_ & _ & _ & _ & _ & Hc & Hs & _).
  fold st in Hc, Hs. fold w' in Hc, Hs.
  split; [|split; [|split]].
  - intros Herr. split; [apply bucket_of_spec; exact Herr|].
    apply error_status_test in Herr. rewrite Herr in Hc, Hs.
    split; [exact Hc | exact Hs].
  - intros b Hb. exact (spec_bucket_unique st b Hb).
  - intros Hok.
    assert (E : (st =? 0) || (st >=? 400) = false)
      by (apply error_status_test_false; lia).
    rewrite E in Hc, Hs. split; [exact Hc | exact Hs].
  - intros e. destruct (runScenario_raises cfg e w H)
      as (_ & _ & _ & _ & _ & Hce & Hse & _).
    split; [exact Hce | exact Hse].
Qed.

Lemma responses_are_classified_by_precedence_witness :
  truthy_string (targetUrl sample_config) = true
  /\ (404 = 0 \/ 404 >= 400)
  /\ counted (Some client) initial_world
       (snd (runScenario sample_config (responds 404) initial_world)).
Proof.
  split; [reflexivity|]. split; [right; lia|].
  apply (responses_are_classified_by_precedence sample_config
           {| res_status := 404; res_error := "" |} initial_world eq_refl).
  right. simpl. lia.
Defined.

Example classification_examples :
  bucket_of 401 = auth /\ bucket_of 403 = auth /\ bucket_of 0 = server
  /\ bucket_of 500 = server /\ bucket_of 503 = server
  /\ bucket_of 400 = client /\ bucket_of 404 = client /\ bucket_of 499 = client.
Proof. repeat split. Qed.

(* --------------------------------------------------------------------- *)
(** ** Transport failures *)
(* --------------------------------------------------------------------- *)

(** C3.  When the transport call raises, the invocation returns normally;
    [serverErrorCounter] grows by exactly one and the other counters stay;
    one sample with status 0, the failure's message (or [request threw]
    when the thrown value carries none) and the target as url is appended
    to the server bucket if that bucket holds fewer than three, and no
    other bucket changes; [statusCounts] and [statusOrder] are unchanged;
    the call is followed by a one-second pause. *)
Theorem transport_failure_is_a_server_error
    (cfg : Config) (e : Thrown) (w : World) :
  truthy_string (targetUrl cfg) = true ->
  let target := targetUrl cfg ?? "" in
  let w' := snd (runScenario cfg (Raises e) w) in
  let sample :=
    {| status := 0; message := thrown_message e ?? "request threw";
       url := target |} in
  fst (runScenario cfg (Raises e) w) = Normal tt
  /\ serverErrorCounter w' = S (serverErrorCounter w)
  /\ authErrorCounter w' = authErrorCounter w
  /\ clientErrorCounter w' = clientErrorCounter w
  /\ de_server (dataErrors w')
     = (if (length (de_server (dataErrors w)) <? 3)%nat
        then de_server (dataErrors w) ++ [sample]
        else de_server (dataErrors w))
  /\ de_auth (dataErrors w') = de_auth (dataErrors w)
  /\ de_client (dataErrors w') = de_client (dataErrors w)
  /\ (forall m, thrown_message e = Some m -> message sample = m)
  /\ statusCounts w' = statusCounts w
  /\ statusOrder w' = statusOrder w
  /\ trace w' = trace w
                ++ [HttpRequest (method cfg) target (body cfg) (headers cfg)
                      (Raises e); Sleep 1].
Proof.
  intros H target w' sample.
  destruct (runScenario_raises cfg e w H)
    as (Hn & Hc & Ho & _ & _ & (Ca & Cc & Cs) & Hs & Ht).
  fold w' in Hc, Ho, Ca, Cc, Cs, Hs, Ht.
  split; [exact Hn|].
  split; [rewrite Cs; lia|]. split; [rewrite Ca; lia|].
  split; [rewrite Cc; lia|].
  split; [exact (Hs server)|]. split; [exact (Hs auth)|].
  split; [exact (Hs client)|].
  split; [intros m Hm; simpl; rewrite Hm; reflexivity|].
  split; [exact Hc|]. split; [exact Ho | exact Ht].
Qed.

Lemma transport_failure_is_a_server_error_witness :
  truthy_string (targetUrl sample_config) = true
  /\ fst (runScenario sample_config
            (Raises {| thrown_message := Some "dial tcp: refused" |})
            initial_world) = Normal tt
  /\ serverErrorCounter
       (snd (runScenario sample_config
               (Raises {| thrown_message := Some "dial tcp: refused" |})
               initial_world)) = 1%nat.
Proof.
  split; [reflexivity|].
  pose proof (transport_failure_is_a_server_error sample_config
                {| thrown_message := Some "dial tcp: refused" |}
                initial_world eq_refl) as H.
  split; [apply H | apply H].
Defined.

Example transport_failure_sample :
  de_server
    (dataErrors
       (snd (runScenario sample_config
               (Raises {| thrown_message := Some "dial tcp: refused" |})
               initial_world)))
  = [{| status := 0; message := "dial tcp: refused";
        url := "http://localhost:3000/health" |}].
Proof. reflexivity. Qed.

(* --------------------------------------------------------------------- *)
(** ** Sample buckets *)
(* --------------------------------------------------------------------- *)

Lemma capped_push_length l s :
  (length l <= 3 -> length (capped_push l s) <= 3)%nat.
Proof.
  intros H. unfold capped_push.
  destruct (Nat.ltb_spec (length l) 3); [|exact H].
  rewrite length_app. simpl. lia.
Qed.

Lemma capped_push_extends l s :
  exists added, capped_push l s = l ++ added /\ (length added <= 1)%nat.
Proof.
  unfold capped_push. destruct (length l <? 3)%nat.
  - exists [s]. split; [reflexivity | simpl; lia].
  - exists []. split; [now rewrite app_nil_r | simpl; lia].
Qed.

(** Whatever the invocation, each bucket is offered at most one sample. *)
Lemma invocation_samples cfg t w :
  exists hit sample, sampled hit sample w (snd (runScenario cfg t w)).
Proof.
  destruct (truthy_string (targetUrl cfg)) eqn:H.
  - destruct t as [r|e].
    + destruct (runScenario_responds cfg r w H)
        as (_ & _ & _ & _ & _ & _ & Hs & _).
      eexists _, _. exact Hs.
    + destruct (runScenario_raises cfg e w H)
        as (_ & _ & _ & _ & _ & _ & Hs & _).
      eexists _, _. exact Hs.
  - exists None, {| status := 0; message := ""; url := "" |}.
    rewrite runScenario_skips by exact H. intros b'. reflexivity.
Qed.

Lemma invocation_extends_buckets cfg t w b :
  exists added,
    get_bucket b (dataErrors (snd (runScenario cfg t w)))
    = get_bucket b (dataErrors w) ++ added
    /\ (length added <= 1)%nat.
Proof.
  destruct (invocation_samples cfg t w) as (hit & sample & Hs).
  rewrite (Hs b). destruct (bool_decide (hit = Some b)).
  - apply capped_push_extends.
  - exists []. split; [now rewrite app_nil_r | simpl; lia].
Qed.

Lemma invocation_keeps_cap cfg t w :
  (forall b, length (get_bucket b (dataErrors w)) <= 3)%nat ->
  (forall b, length (get_bucket b (dataErrors (snd (runScenario cfg t w)))) <= 3)%nat.
Proof.
  intros Hw b. destruct (invocation_samples cfg t w) as (hit & sample & Hs).
  rewrite (Hs b). destruct (bool_decide (hit = Some b)); [|apply Hw].
  apply capped_push_length, Hw.
Qed.

Lemma iterate_keeps_cap cfg ts : forall w,
  (forall b, length (get_bucket b (dataErrors w)) <= 3)%nat ->
  (forall b, length (get_bucket b (dataErrors (iterate cfg ts w))) <= 3)%nat.
Proof.
  induction ts as [|t ts IH]; intros w Hw; [exact Hw|].
  rewrite iterate_cons. apply IH, invocation_keeps_cap, Hw.
Qed.

Lemma iterate_extends_buckets cfg ts : forall w b,
  exists added,
    get_bucket b (dataErrors (iterate cfg ts w))
    = get_bucket b (dataErrors w) ++ added.
Proof.
  induction ts as [|t ts IH]; intros w b.
  - exists []. now rewrite app_nil_r.
  - rewrite iterate_cons.
    destruct (IH (snd (runScenario cfg t w)) b) as (l2 & H2).
    destruct (invocation_extends_buckets cfg t w b) as (l1 & H1 & _).
    exists (l1 ++ l2). rewrite H2, H1, app_assoc. reflexivity.
Qed.

(** One response with status 403. *)
Lemma forbidden_response cfg r w :
  truthy_string (targetUrl cfg) = true ->
  res_status r = 403 ->
  let w' := snd (runScenario cfg (Responds r) w) in
  authErrorCounter w' = S (authErrorCounter w)
  /\ clientErrorCounter w' = clientErrorCounter w
  /\ serverErrorCounter w' = serverErrorCounter w
  /\ de_auth (dataErrors w')
     = capped_push (de_auth (dataErrors w))
         {| status := 403; message := http_message r;
            url := targetUrl cfg ?? "" |}.
Proof.
  intros H Hst w'.
  destruct (runScenario_responds cfg r w H)
    as (_ & _ & _ & _ & _ & (Ca & Cc & Cs) & Hs & _).
  fold w' in Ca, Cc, Cs, Hs. rewrite Hst in *. simpl in *.
  split; [lia|]. split; [lia|]. split; [lia|]. exact (Hs auth).
Qed.

Lemma repeated_forbidden_responses cfg r n : forall w,
  truthy_string (targetUrl cfg) = true ->
  res_status r = 403 ->
  (length (de_auth (dataErrors w)) <= 3)%nat ->
  Forall (fun s => status s = 403) (de_auth (dataErrors w)) ->
  let w' := iterate cfg (replicate n (Responds r)) w in
  authErrorCounter w' = (authErrorCounter w + n)%nat
  /\ length (de_auth (dataErrors w'))
     = Nat.min (length (de_auth (dataErrors w)) + n) 3
  /\ Forall (fun s => status s = 403) (de_auth (dataErrors w')).
Proof.
  induction n as [|n IH]; intros w H Hst Hlen Hall; simpl.
  - split; [lia|]. split; [lia | exact Hall].
  - destruct (forbidden_response cfg r w H Hst) as (Ca & _ & _ & Hs).
    set (w1 := snd (runScenario cfg (Responds r) w)) in *.
    assert (Hlen1 : (length (de_auth (dataErrors w1)) <= 3)%nat)
      by (rewrite Hs; apply capped_push_length, Hlen).
    assert (Hall1 : Forall (fun s => status s = 403) (de_auth (dataErrors w1))).
    { rewrite Hs. unfold capped_push.
      destruct (length (de_auth (dataErrors w)) <? 3)%nat; [|exact Hall].
      apply Forall_app. split; [exact Hall|]. constructor; [reflexivity|constructor]. }
    destruct (IH w1 H Hst Hlen1 Hall1) as (I1 & I2 & I3).
    split; [rewrite I1, Ca; lia|]. split; [|exact I3].
    rewrite I2, Hs. unfold capped_push.
    destruct (Nat.ltb_spec (length (de_auth (dataErrors w))) 3).
    + rewrite length_app. simpl. lia.
    + lia.
Qed.

(** C4.  From the initial state, no bucket ever holds more than three
    samples; an invocation only ever appends to a bucket, at most one
    sample, so samples stay in insertion order and the first ones are the
    ones kept.  A response with status 403 adds one to [authErrorCounter]
    and appends one sample with status 403 to the auth bucket when that
    bucket holds fewer than three; after n such responses the counter is n
    while the auth bucket holds min(n, 3) samples, all of status 403. *)
Theorem error_samples_are_capped (cfg : Config) :
  (forall ts b,
     length (get_bucket b (dataErrors (iterate cfg ts initial_world))) <= 3)%nat
  /\ (forall t w b, exists added,
        get_bucket b (dataErrors (snd (runScenario cfg t w)))
        = get_bucket b (dataErrors w) ++ added
        /\ (length added <= 1)%nat)
  /\ (forall ts w b, exists added,
        get_bucket b (dataErrors (iterate cfg ts w))
        = get_bucket b (dataErrors w) ++ added)
  /\ (truthy_string (targetUrl cfg) = true ->
      forall r w, res_status r = 403 ->
        let w' := snd (runScenario cfg (Responds r) w) in
        authErrorCounter w' = S (authErrorCounter w)
        /\ de_auth (dataErrors w')
           = (if (length (de_auth (dataErrors w)) <? 3)%nat
              then de_auth (dataErrors w)
                   ++ [{| status := 403; message := http_message r;
                          url := targetUrl cfg ?? "" |}]
              else de_auth (dataErrors w)))
  /\ (truthy_string (targetUrl cfg) = true ->
      forall r n, res_status r = 403 ->
        let w := iterate cfg (replicate n (Responds r)) initial_world in
        authErrorCounter w = n
        /\ length (de_auth (dataErrors w)) = Nat.min n 3
        /\ Forall (fun s => status s = 403) (de_auth (dataErrors w))).
Proof.
  split; [|split; [|split; [|split]]].
  - intros ts b. apply iterate_keeps_cap. intros []; simpl; lia.
  - intros t w b. apply invocation_extends_buckets.
  - intros ts w b. apply iterate_extends_buckets.
  - intros H r w Hst w'.
    destruct (forbidden_response cfg r w H Hst) as (Ca & _ & _ & Hs).
    split; [exact Ca | exact Hs].
  - intros H r n Hst.
    apply (repeated_forbidden_responses cfg r n initial_world H Hst).
    + simpl. lia.
    + constructor.
Qed.

Lemma error_samples_are_capped_witness :
  truthy_string (targetUrl sample_config) = true
  /\ res_status {| res_status := 403; res_error := "" |} = 403
  /\ authErrorCounter
       (iterate sample_config (replicate 5 (responds 403)) initial_world) = 5%nat
  /\ length (de_auth (dataErrors
       (iterate sample_config (replicate 5 (responds 403)) initial_world)))
     = 3%nat.
Proof.
  split; [reflexivity|]. split; [reflexivity|].
  destruct (error_samples_are_capped sample_config) as (_ & _ & _ & _ & H).
  destruct (H eq_refl {| res_status := 403; res_error := "" |} 5%nat eq_refl)
    as (H1 & H2 & _).
  split; [exact H1 | exact H2].
Defined.

(* --------------------------------------------------------------------- *)
(** ** The summary *)
(* --------------------------------------------------------------------- *)

(** Two strings that differ at one of their first seven characters. *)
Ltac differ_early H :=
  first
    [ apply (f_equal (String.get 0)) in H; vm_compute in H; discriminate H
    | apply (f_equal (String.get 2)) in H; vm_compute in H; discriminate H
    | apply (f_equal (String.get 6)) in H; vm_compute in H; discriminate H ].

Lemma literal_lacks_the_diagnostic host w data :
  ~ In no_samples_line (errorsSection_literal host w data).
Proof.
  unfold errorsSection_literal. simpl.
  intros [H|[H|[H|[H|[H|[H|[H|[]]]]]]]].
  - match type of H with color ?b +:+ _ = _ => destruct b end; differ_early H.
  - differ_early H.
  - differ_early H.
  - differ_early H.
  - destruct (de_auth (dataErrors w)); differ_early H.
  - destruct (de_client (dataErrors w)); differ_early H.
  - destruct (de_server (dataErrors w)); differ_early H.
Qed.

Lemma no_samples_test w :
  (length (de_auth (dataErrors w)) + length (de_client (dataErrors w))
   + length (de_server (dataErrors w)) =? 0)%nat = true
  <-> no_samples w.
Proof.
  unfold no_samples. rewrite Nat.eqb_eq.
  destruct (de_auth (dataErrors w)), (de_client (dataErrors w)),
    (de_server (dataErrors w)); simpl; split;
    try (intros H; discriminate H);
    try (intros (H1 & H2 & H3); discriminate);
    auto.
Qed.

(** The guard of the conditional [push], exactly. *)
Lemma diagnostic_line_guard host w data :
  In no_samples_line (errorsSection host w data)
  <-> gt (rateFailed data ?? ofZ 0) (ofZ 0) = true /\ no_samples w.
Proof.
  unfold errorsSection. rewrite <- no_samples_test.
  destruct (gt _ _ && _) eqn:E.
  - apply andb_true_iff in E. split; [intros _; exact E|].
    intros _. apply in_or_app. right. left. reflexivity.
  - split.
    + intros H. exfalso. exact (literal_lacks_the_diagnostic host w data H).
    + intros [H1 H2]. rewrite H1, H2 in E. discriminate E.
Qed.

(** [handleSummary] returns the sections joined by line feeds; the only
    thing it does to the world is log the advisory warnings. *)
Lemma handleSummary_renders_sections host enforce data w :
  exists w',
    handleSummary host enforce data w
    = (Normal {| stdout := join (String "010"%char "") (sections host w data) |},
       w').
Proof.
  unfold handleSummary, advisory_warnings.
  destruct enforce; simpl; [eexists; reflexivity|].
  unfold bind, console_warn, emit, modify, ret, get.
  destruct (prop_of data "http_req_failed" "rate") as [r|];
    destruct (prop_of data "http_req_duration" "p(95)") as [p|];
    try destruct (gt r lit_0_05); try destruct (gt p (ofZ 2200));
    eexists; reflexivity.
Qed.

(** When thresholds are not enforced, a failed rate above 0.05 found on
    the metric itself is reported by a warning; when they are enforced the
    reporter logs nothing. *)
Lemma advisory_warning_when_relaxed host data w r :
  prop_of data "http_req_failed" "rate" = Some r ->
  gt r lit_0_05 = true ->
  In (ConsoleWarn ("http_req_failed threshold exceeded (rate="
                   +:+ numberToString host r
                   +:+ "). Result will still be saved."))
     (trace (snd (handleSummary host false data w)))
  /\ trace (snd (handleSummary host true data w)) = trace w.
Proof.
  intros Hr Hgt. split; [|reflexivity].
  unfold handleSummary, advisory_warnings. simpl.
  unfold bind, console_warn, emit, modify, ret, get.
  rewrite Hr, Hgt.
  destruct (prop_of data "http_req_duration" "p(95)") as [p|];
    try destruct (gt p (ofZ 2200)); simpl;
    repeat (apply in_or_app; first [right; left; reflexivity | left]).
Qed.

Lemma gt_zero_iff_positive v : gt v (ofZ 0) = true <-> positive v.
Proof.
  destruct v as [| | |q]; simpl; try (split; [discriminate | tauto]);
    [tauto | apply Qlt_bool_iff].
Qed.

Lemma rate_guard_iff_positive data :
  gt (rateFailed data ?? ofZ 0) (ofZ 0) = true <-> rate_is_positive data.
Proof.
  unfold rate_is_positive. destruct (rateFailed data) as [r|]; simpl.
  - apply gt_zero_iff_positive.
  - split; [discriminate | tauto].
Qed.

(** For a failed rate that is a proportion (absent, or finite and not
    negative), being greater than zero is being non-zero. *)
Lemma proportion_is_positive_iff_nonzero data :
  rate_is_proportion data -> (rate_is_positive data <-> rate_is_nonzero data).
Proof.
  unfold rate_is_proportion, rate_is_positive, rate_is_nonzero.
  destruct (rateFailed data) as [[| | |q]|]; simpl; try tauto.
  intros Hp. split.
  - intros Hlt Heq. rewrite Heq in Hlt. exact (Qlt_irrefl _ Hlt).
  - intros Hnz. apply Qle_lteq in Hp. destruct Hp as [Hlt | Heq]; [exact Hlt|].
    exfalso. apply Hnz. symmetry. exact Heq.
Qed.

(** C9 (as the code has it).  The Errors section holds the line noting
    failures without samples exactly when the failed rate is a number
    greater than zero and all three sample buckets are empty.  For every
    other input (failed rate zero, absent, negative or NaN, or some
    bucket non-empty) the line is absent.  For a failed rate that is a
    proportion, greater than zero means non-zero.  The Errors section is
    part of the rendered summary. *)
Theorem diagnostic_line_iff_positive_rate_without_samples
    (host : Host) (w : World) (data : SummaryData) :
  (rate_is_positive data /\ no_samples w ->
     In no_samples_line (errorsSection host w data))
  /\ (~ rate_is_positive data \/ ~ no_samples w ->
     ~ In no_samples_line (errorsSection host w data))
  /\ (rate_is_zero data -> ~ In no_samples_line (errorsSection host w data))
  /\ (rate_is_proportion data ->
      (rate_is_positive data <-> rate_is_nonzero data))
  /\ (forall line, In line (errorsSection host w data) ->
                   In line (sections host w data))
  /\ (forall enforce, exists w',
        handleSummary host enforce data w
        = (Normal {| stdout := join (String "010"%char "") (sections host w data) |},
           w')).
Proof.
  assert (Habsent : ~ rate_is_positive data \/ ~ no_samples w ->
                    ~ In no_samples_line (errorsSection host w data)).
  { intros Hn Hin. apply diagnostic_line_guard in Hin. destruct Hin as [Hg Hns].
    apply rate_guard_iff_positive in Hg. tauto. }
  split; [|split; [exact Habsent|split; [|split; [|split]]]].
  - intros [Hpos Hns]. apply diagnostic_line_guard.
    split; [apply rate_guard_iff_positive; exact Hpos | exact Hns].
  - intros Hz. apply Habsent. left.
    unfold rate_is_zero, rate_is_positive in *.
    destruct (rateFailed data) as [[| | |q]|]; simpl; try tauto.
    intros Hlt. rewrite Hz in Hlt. exact (Qlt_irrefl _ Hlt).
  - apply proportion_is_positive_iff_nonzero.
  - intros line Hin. unfold sections.
    apply in_or_app. right. apply in_or_app. left. exact Hin.
  - intros enforce. apply handleSummary_renders_sections.
Qed.

Lemma diagnostic_line_iff_positive_rate_without_samples_witness :
  rate_is_positive (failing_data (1 # 5))
  /\ no_samples initial_world
  /\ In no_samples_line
        (errorsSection RefHost.host initial_world (failing_data (1 # 5))).
Proof.
  assert (Hpos : rate_is_positive (failing_data (1 # 5))) by reflexivity.
  assert (Hns : no_samples initial_world) by (repeat split).
  split; [exact Hpos|]. split; [exact Hns|].
  apply (diagnostic_line_iff_positive_rate_without_samples RefHost.host
           initial_world (failing_data (1 # 5))).
  split; [exact Hpos | exact Hns].
Defined.

(** C9 does not hold as stated: the failed rate -1/5 is non-zero and all
    three buckets are empty, yet the guard [(rateFailed ?? 0) > 0] is
    false and the Errors section does not hold the line. *)
Lemma negative_rate_shows_no_diagnostic :
  rateFailed (failing_data (-1 # 5)) = Some (Finite (-1 # 5))
  /\ rate_is_nonzero (failing_data (-1 # 5))
  /\ no_samples initial_world
  /\ gt (rateFailed (failing_data (-1 # 5)) ?? ofZ 0) (ofZ 0) = false
  /\ ~ In no_samples_line
         (errorsSection RefHost.host initial_world (failing_data (-1 # 5))).
Proof.
  split; [reflexivity|]. split; [vm_compute; discriminate|].
  split; [repeat split|]. split; [reflexivity|].
  intros Hin. apply diagnostic_line_guard in Hin. destruct Hin as [Hg _].
  vm_compute in Hg. discriminate Hg.
Qed.

Example diagnostic_line_absent_with_a_sample :
  ~ In no_samples_line
       (errorsSection RefHost.host
          (iterate sample_config [responds 500] initial_world)
          (failing_data (1 # 5))).
Proof.
  intros H. apply diagnostic_line_guard in H. destruct H as (_ & _ & _ & H).
  vm_compute in H. discriminate H.
Qed.

(* --------------------------------------------------------------------- *)
(** ** The check and its label in the summary *)
(* --------------------------------------------------------------------- *)

Lemma check_passes_spec st : check_passes st = true <-> st <> 0 /\ st < 400.
Proof.
  unfold check_passes. rewrite andb_true_iff, negb_true_iff, Z.eqb_neq, Z.ltb_lt.
  reflexivity.
Qed.

Lemma checks_line_in_sections host w data :
  In (checks_line host data) (sections host w data).
Proof.
  unfold sections.
  do 4 (apply in_or_app; right). apply in_or_app. left.
  simpl. auto.
Qed.

(** C10.  Each response makes [runScenario] record one check named
    [status is < 400], which passes exactly when the status is non-zero
    and below 400.  Whatever its input, [handleSummary] renders the Checks
    line under the label [status < 500]: the label is not the check's
    name, and the predicate it spells accepts every status from 400 to
    499, which the check rejects. *)
Theorem checks_label_is_not_the_check (host : Host) :
  (forall cfg r w, truthy_string (targetUrl cfg) = true ->
     checks (snd (runScenario cfg (Responds r) w))
     = checks w ++ [("status is < 400", check_passes (res_status r))])
  /\ (forall st, check_passes st = true <-> st <> 0 /\ st < 400)
  /\ (forall enforce data w, exists w',
        handleSummary host enforce data w
        = (Normal {| stdout := join (String "010"%char "") (sections host w data) |},
           w')
        /\ In (checks_line host data) (sections host w data))
  /\ (forall data,
        checks_line host data
        = "- " +:+ "status < 500" +:+ ": passes="
          +:+ fmtCount host (value_of data "checks" "passes")
          +:+ " fails=" +:+ fmtCount host (value_of data "checks" "fails"))
  /\ "status < 500" <> check_name
  /\ Minimal.check_name = "status is < 500"
  /\ (forall st, 400 <= st < 500 ->
        Minimal.check_passes st = true /\ check_passes st = false).
Proof.
  split; [|split; [|split; [|split; [|split; [|split]]]]].
  - intros cfg r w H. apply (runScenario_responds cfg r w H).
  - apply check_passes_spec.
  - intros enforce data w.
    destruct (handleSummary_renders_sections host enforce data w) as [w' Hw'].
    exists w'. split; [exact Hw' | apply checks_line_in_sections].
  - intros data. reflexivity.
  - discriminate.
  - reflexivity.
  - intros st Hst. unfold Minimal.check_passes, check_passes.
    split.
    + apply andb_true_iff. split; [apply negb_true_iff, Z.eqb_neq | apply Z.ltb_lt]; lia.
    + apply andb_false_iff. right. apply Z.ltb_ge. lia.
Qed.

Lemma checks_label_is_not_the_check_witness :
  truthy_string (targetUrl sample_config) = true
  /\ checks (snd (runScenario sample_config (responds 404) initial_world))
     = [("status is < 400", false)]
  /\ In "- status < 500: passes=n/a fails=n/a"
        (sections RefHost.host initial_world {| metrics := None; state := None |}).
Proof.
  split; [reflexivity|].
  destruct (checks_label_is_not_the_check RefHost.host)
    as (H1 & _ & H3 & _).
  split.
  - exact (H1 sample_config {| res_status := 404; res_error := "" |}
             initial_world eq_refl).
  - destruct (H3 false {| metrics := None; state := None |} initial_world)
      as (w' & _ & Hin).
    exact Hin.
Defined.

(* --------------------------------------------------------------------- *)
(** ** Mode selection *)
(* --------------------------------------------------------------------- *)

(** The overrides reassign [scenarioOptions.CUSTOM] only. *)
Lemma scenarioOptions_other host env m :
  m <> "CUSTOM" ->
  scenarioOptions host env !! m = scenarioOptions_literal !! m.
Proof.
  intros Hm. unfold scenarioOptions, apply_duration_override, apply_vus_override.
  destruct (negb (Number_isNaN (customDurationOverride host env)) && _);
    destruct (negb (Number_isNaN (customVusOverride host env)) && _);
    rewrite ?lookup_alter_ne by congruence; reflexivity.
Qed.

Lemma literal_lookup_unknown m :
  ~ In m known_modes -> scenarioOptions_literal !! m = None.
Proof.
  intros Hm. unfold scenarioOptions_literal.
  rewrite !lookup_insert_ne; [apply lookup_empty | ..];
    intros <-; apply Hm; simpl; tauto.
Qed.

(** X1.  A mode written in ASCII characters that is none of the five
    profile names, once upper-cased, resolves to the SMOKE defaults: 2
    virtual users for 30 seconds, whatever the overrides. *)
Theorem unknown_mode_resolves_to_SMOKE (host : Host) (env : Env) :
  ascii_only (MODE env ?? "SMOKE") = true ->
  ~ In (selectedMode env) known_modes ->
  opt_vus (options host env) = ofZ 2
  /\ opt_duration (options host env) = "30s".
Proof.
  intros _ Hm.
  assert (Hc : selectedMode env <> "CUSTOM").
  { intros E. apply Hm. rewrite E. simpl. tauto. }
  unfold options, selectedProfile. simpl.
  rewrite (scenarioOptions_other host env _ Hc).
  rewrite (literal_lookup_unknown _ Hm), scenarioOptions_SMOKE.
  split; reflexivity.
Qed.

Lemma unknown_mode_resolves_to_SMOKE_witness :
  ascii_only
    (MODE (set_MODE (Some "turbo") (customEnv (Some "50") (Some "90")))
     ?? "SMOKE") = true
  /\ ~ In (selectedMode (set_MODE (Some "turbo") (customEnv (Some "50") (Some "90"))))
       known_modes
  /\ opt_vus (options RefHost.host
                (set_MODE (Some "turbo") (customEnv (Some "50") (Some "90"))))
     = ofZ 2.
Proof.
  assert (H : ~ In (selectedMode
                      (set_MODE (Some "turbo")
                         (customEnv (Some "50") (Some "90")))) known_modes).
  { simpl. intros [H|[H|[H|[H|[H|[]]]]]]; discriminate H. }
  split; [reflexivity|]. split; [exact H|].
  apply (unknown_mode_resolves_to_SMOKE RefHost.host
           (set_MODE (Some "turbo") (customEnv (Some "50") (Some "90")))
           eq_refl H).
Defined.

(** X2.  The overrides [CUSTOM_VUS] and [CUSTOM_DURATION_SECONDS] never reach
    another profile: under SMOKE, STRESS, SOAK and SPIKE (and with [MODE]
    absent, which is SMOKE) the options carry the table's values whatever
    the overrides are. *)
Theorem overrides_only_reach_CUSTOM (host : Host) (env : Env) :
  selectedMode env <> "CUSTOM" ->
  (MODE env = None ->
     opt_vus (options host env) = ofZ 2 /\ opt_duration (options host env) = "30s")
  /\ (selectedMode env = "SMOKE" ->
     opt_vus (options host env) = ofZ 2 /\ opt_duration (options host env) = "30s")
  /\ (selectedMode env = "STRESS" ->
     opt_vus (options host env) = ofZ 5 /\ opt_duration (options host env) = "1m")
  /\ (selectedMode env = "SOAK" ->
     opt_vus (options host env) = ofZ 3 /\ opt_duration (options host env) = "2m")
  /\ (selectedMode env = "SPIKE" ->
     opt_vus (options host env) = ofZ 10 /\ opt_duration (options host env) = "20s").
Proof.
  intros Hc.
  assert (H : forall m p, selectedMode env = m ->
                scenarioOptions_literal !! m = Some p ->
                opt_vus (options host env) = vus p
                /\ opt_duration (options host env) = duration p).
  { intros m p Hm Hp. unfold options, selectedProfile. simpl.
    rewrite (scenarioOptions_other host env _ Hc), Hm, Hp. split; reflexivity. }
  split; [|split; [|split; [|split]]].
  - intros Hn. apply (H "SMOKE" {| vus := ofZ 2; duration := "30s" |});
      [|reflexivity].
    unfold selectedMode. rewrite Hn. reflexivity.
  - intros Hm.
    apply (H "SMOKE" {| vus := ofZ 2; duration := "30s" |} Hm). reflexivity.
  - intros Hm.
    apply (H "STRESS" {| vus := ofZ 5; duration := "1m" |} Hm). reflexivity.
  - intros Hm.
    apply (H "SOAK" {| vus := ofZ 3; duration := "2m" |} Hm). reflexivity.
  - intros Hm.
    apply (H "SPIKE" {| vus := ofZ 10; duration := "20s" |} Hm). reflexivity.
Qed.

Lemma overrides_only_reach_CUSTOM_witness :
  selectedMode (set_MODE (Some "stress") (customEnv (Some "50") (Some "90")))
  <> "CUSTOM"
  /\ selectedMode (set_MODE (Some "stress") (customEnv (Some "50") (Some "90")))
     = "STRESS"
  /\ opt_vus (options RefHost.host
                (set_MODE (Some "stress") (customEnv (Some "50") (Some "90"))))
     = ofZ 5
  /\ opt_duration (options RefHost.host
                (set_MODE (Some "stress") (customEnv (Some "50") (Some "90"))))
     = "1m".
Proof.
  assert (H : selectedMode
                (set_MODE (Some "stress") (customEnv (Some "50") (Some "90")))
              <> "CUSTOM") by discriminate.
  split; [exact H|]. split; [reflexivity|].
  apply (overrides_only_reach_CUSTOM RefHost.host _ H). reflexivity.
Defined.

Lemma upper_ascii_idempotent c : upper_ascii (upper_ascii c) = upper_ascii c.
Proof. destruct c as [[] [] [] [] [] [] [] []]; reflexivity. Qed.

Lemma upper_lower_ascii c : upper_ascii (lower_ascii c) = upper_ascii c.
Proof. destruct c as [[] [] [] [] [] [] [] []]; reflexivity. Qed.

Lemma toUpperCase_idempotent s : toUpperCase (toUpperCase s) = toUpperCase s.
Proof.
  induction s as [|c s IH]; [reflexivity|].
  simpl. unfold toUpperCase in *. simpl. now rewrite upper_ascii_idempotent, IH.
Qed.

Lemma toUpperCase_toLowerCase s : toUpperCase (toLowerCase s) = toUpperCase s.
Proof.
  induction s as [|c s IH]; [reflexivity|].
  unfold toUpperCase, toLowerCase in *. simpl. now rewrite upper_lower_ascii, IH.
Qed.

(** X3.  [MODE] is read without regard to the case of its ASCII letters: a
    mode, its lower-cased and its upper-cased spelling resolve to the same
    options. *)
Theorem mode_is_case_insensitive (host : Host) (env : Env) (m : string) :
  options host (set_MODE (Some (toLowerCase m)) env)
  = options host (set_MODE (Some m) env)
  /\ options host (set_MODE (Some (toUpperCase m)) env)
     = options host (set_MODE (Some m) env).
Proof.
  assert (H : forall m', toUpperCase m' = toUpperCase m ->
                options host (set_MODE (Some m') env)
                = options host (set_MODE (Some m) env)).
  { intros m' Hm. unfold options, selectedProfile, selectedMode. simpl.
    rewrite Hm. reflexivity. }
  split; apply H; [apply toUpperCase_toLowerCase | apply toUpperCase_idempotent].
Qed.

(* --------------------------------------------------------------------- *)
(** ** The committed bundle against the source *)
(* --------------------------------------------------------------------- *)

Lemma dist_lookup_other m :
  m <> "CUSTOM" ->
  DistBundle.scenarioOptions !! m = scenarioOptions_literal !! m.
Proof.
  intros Hm. unfold DistBundle.scenarioOptions, scenarioOptions_literal.
  rewrite !(lookup_insert_ne _ "CUSTOM") by congruence. reflexivity.
Qed.

(** X4.  For a mode written in ASCII characters: outside mode CUSTOM the
    committed bundle resolves the same virtual users, duration and
    thresholds as the minimal source script.  In mode CUSTOM it always
    resolves 100 virtual users for one minute, reading no override, where
    the source resolves 20 (or the override). *)
Theorem dist_bundle_differs_on_CUSTOM (host : Host) (env : Env) :
  ascii_only (MODE env ?? "SMOKE") = true ->
  (selectedMode env <> "CUSTOM" ->
     DistBundle.options env = MinimalScript.options host env)
  /\ (selectedMode env = "CUSTOM" ->
     MinimalScript.vus (DistBundle.options env) = ofZ 100
     /\ MinimalScript.duration (DistBundle.options env) = "1m"
     /\ (CUSTOM_VUS env = None ->
         MinimalScript.vus (MinimalScript.options host env) = ofZ 20
         /\ MinimalScript.vus (DistBundle.options env)
            <> MinimalScript.vus (MinimalScript.options host env))).
Proof.
  intros _. split.
  - intros Hc. unfold DistBundle.options, MinimalScript.options,
      DistBundle.selectedProfile, selectedProfile.
    rewrite (scenarioOptions_other host env _ Hc), (dist_lookup_other _ Hc).
    rewrite scenarioOptions_SMOKE. reflexivity.
  - intros Hm.
    assert (Hd : DistBundle.options env
                 = {| MinimalScript.vus := ofZ 100;
                      MinimalScript.duration := "1m";
                      MinimalScript.thresholds := Minimal.thresholds_literal |}).
    { unfold DistBundle.options, DistBundle.selectedProfile. rewrite Hm.
      reflexivity. }
    rewrite Hd. split; [reflexivity|]. split; [reflexivity|].
    intros Hn.
    assert (Hv : MinimalScript.vus (MinimalScript.options host env) = ofZ 20).
    { unfold MinimalScript.options. simpl. unfold profile_vus.
      pose proof (selectedProfile_CUSTOM host env Hm) as Hp.
      rewrite scenarioOptions_CUSTOM in Hp. injection Hp as Hp. rewrite Hp.
      simpl. unfold customVusOverride. rewrite Hn. reflexivity. }
    split; [exact Hv|]. rewrite Hv. discriminate.
Qed.

Lemma dist_bundle_differs_on_CUSTOM_witness :
  ascii_only (MODE (customEnv None None) ?? "SMOKE") = true
  /\ selectedMode (customEnv None None) = "CUSTOM"
  /\ CUSTOM_VUS (customEnv None None) = None
  /\ MinimalScript.vus (DistBundle.options (customEnv None None)) = ofZ 100
  /\ MinimalScript.vus (MinimalScript.options RefHost.host (customEnv None None))
     = ofZ 20.
Proof.
  split; [reflexivity|]. split; [reflexivity|]. split; [reflexivity|].
  destruct (dist_bundle_differs_on_CUSTOM RefHost.host (customEnv None None)
              eq_refl) as [_ H].
  destruct (H eq_refl) as (H1 & _ & H3).
  split; [exact H1|]. exact (proj1 (H3 eq_refl)).
Defined.

(* --------------------------------------------------------------------- *)
(** ** What an invocation does to the trace *)
(* --------------------------------------------------------------------- *)

Lemma invocation_trace cfg t w :
  trace (snd (runScenario cfg t w)) = trace w ++ invocation_events cfg t.
Proof.
  unfold invocation_events. destruct (truthy_string (targetUrl cfg)) eqn:H.
  - destruct t as [r|e].
    + apply (runScenario_responds cfg r w H).
    + apply (runScenario_raises cfg e w H).
  - rewrite runScenario_skips by exact H. simpl.
    rewrite <- app_assoc. reflexivity.
Qed.

Lemma iterate_trace cfg ts : forall w,
  trace (iterate cfg ts w) = trace w ++ flat_map (invocation_events cfg) ts.
Proof.
  induction ts as [|t ts IH]; intros w.
  - simpl. now rewrite app_nil_r.
  - rewrite iterate_cons, IH, invocation_trace.
    change (flat_map (invocation_events cfg) (t :: ts))
      with (invocation_events cfg t ++ flat_map (invocation_events cfg) ts).
    rewrite <- app_assoc. reflexivity.
Qed.

Lemma count_where_app {A} (p : A -> bool) l1 l2 :
  count_where p (l1 ++ l2) = (count_where p l1 + count_where p l2)%nat.
Proof. induction l1 as [|x l1 IH]; simpl; [reflexivity | rewrite IH; lia]. Qed.

Lemma pauses_of_invocations cfg ts :
  count_where is_pause (flat_map (invocation_events cfg) ts) = length ts.
Proof.
  induction ts as [|t ts IH]; [reflexivity|].
  change (flat_map (invocation_events cfg) (t :: ts))
    with (invocation_events cfg t ++ flat_map (invocation_events cfg) ts).
  rewrite count_where_app, IH. unfold invocation_events.
  destruct (truthy_string (targetUrl cfg)); reflexivity.
Qed.

Lemma events_of_invocations cfg ts e :
  In e (flat_map (invocation_events cfg) ts) ->
  e = Sleep 1 \/ e = ConsoleLog skip_notice
  \/ exists t, e = HttpRequest (method cfg) (targetUrl cfg ?? "")
                     (body cfg) (headers cfg) t.
Proof.
  intros He. apply in_flat_map in He. destruct He as (t & _ & He).
  unfold invocation_events in He. simpl in He.
  destruct He as [He | [He | []]]; [|left; now symmetry].
  right. destruct (truthy_string (targetUrl cfg)); [right; eauto | left; now symmetry].
Qed.

(** X5.  Every invocation of [runScenario], skipped or not, failed or not,
    adds exactly two events to the trace, in this order: the skip notice
    or the transport call with the configured method, target, body and
    headers, then one pause of one second.  After N invocations the
    script has paused exactly N times. *)
Theorem every_invocation_pauses_once (cfg : Config) (ts : list Transport) (w : World) :
  trace (iterate cfg ts w) = trace w ++ flat_map (invocation_events cfg) ts
  /\ pauses (iterate cfg ts w) = (pauses w + length ts)%nat
  /\ (forall e, In e (flat_map (invocation_events cfg) ts) ->
        e = Sleep 1 \/ e = ConsoleLog skip_notice
        \/ exists t, e = HttpRequest (method cfg) (targetUrl cfg ?? "")
                           (body cfg) (headers cfg) t).
Proof.
  split; [apply iterate_trace|]. split.
  - unfold pauses. rewrite iterate_trace, count_where_app, pauses_of_invocations.
    reflexivity.
  - intros e. apply events_of_invocations.
Qed.

(* --------------------------------------------------------------------- *)
(** ** No target: the no-op mode *)
(* --------------------------------------------------------------------- *)

Lemma skip_keeps_aggregates cfg t w :
  truthy_string (targetUrl cfg) = false ->
  same_aggregates w (snd (runScenario cfg t w)).
Proof.
  intros H. rewrite runScenario_skips by exact H.
  repeat split.
Qed.

Lemma same_aggregates_trans w1 w2 w3 :
  same_aggregates w1 w2 -> same_aggregates w2 w3 -> same_aggregates w1 w3.
Proof.
  unfold same_aggregates.
  intros (A1 & A2 & A3 & A4 & A5 & A6 & A7 & A8)
         (B1 & B2 & B3 & B4 & B5 & B6 & B7 & B8).
  repeat split; congruence.
Qed.

(** X6.  With no target configured (both variables absent, or the chosen one
    empty), any number of invocations leaves [statusCounts],
    [statusOrder], [dataErrors], the trend, the three counters and the
    checks exactly as they were, makes no transport call, and only logs
    the skip notice and pauses, once each per invocation. *)
Theorem no_target_changes_nothing (cfg : Config) (ts : list Transport) (w : World) :
  truthy_string (targetUrl cfg) = false ->
  same_aggregates w (iterate cfg ts w)
  /\ transport_calls (iterate cfg ts w) = transport_calls w
  /\ trace (iterate cfg ts w)
     = trace w ++ flat_map (fun _ => [ConsoleLog skip_notice; Sleep 1]) ts.
Proof.
  intros H. revert w. induction ts as [|t ts IH]; intros w.
  - simpl. split; [repeat split|]. split; [reflexivity | now rewrite app_nil_r].
  - rewrite iterate_cons.
    destruct (IH (snd (runScenario cfg t w))) as (I1 & I2 & I3).
    split; [eapply same_aggregates_trans; [apply skip_keeps_aggregates, H | exact I1]|].
    split.
    + rewrite I2. rewrite runScenario_skips by exact H.
      unfold transport_calls. simpl. rewrite !filter_app. simpl.
      rewrite !app_nil_r. reflexivity.
    + rewrite I3. rewrite runScenario_skips by exact H. simpl.
      rewrite <- !app_assoc. reflexivity.
Qed.

Lemma no_target_changes_nothing_witness :
  truthy_string (targetUrl no_target_config) = false
  /\ transport_calls
       (iterate no_target_config [responds 200; responds 500] initial_world)
     = transport_calls initial_world.
Proof.
  split; [reflexivity|].
  apply (no_target_changes_nothing no_target_config
           [responds 200; responds 500] initial_world eq_refl).
Defined.

(* --------------------------------------------------------------------- *)
(** ** The request descriptor *)
(* --------------------------------------------------------------------- *)

Lemma load_config_fields env w cfg w' :
  load_config env w = (Normal cfg, w') ->
  targetUrl cfg = nullish_opt (TARGET_URL env) (API_BASE_URL env)
  /\ method cfg = resolve_method env
  /\ body cfg = resolve_body env.
Proof.
  unfold load_config, bind.
  destruct (resolve_headers_completes env w) as (v & w1 & H). rewrite H.
  unfold ret. intros E. injection E as <- <-. repeat split.
Qed.

Lemma resolve_body_read env :
  resolve_method env = "GET" \/ resolve_method env = "HEAD" ->
  resolve_body env = None.
Proof.
  unfold resolve_body. intros [-> | ->]; reflexivity.
Qed.

Lemma resolve_body_some env b :
  resolve_body env = Some b ->
  HTTP_BODY env = Some b /\ b <> ""
  /\ resolve_method env <> "GET" /\ resolve_method env <> "HEAD".
Proof.
  unfold resolve_body.
  destruct (String.eqb_spec (resolve_method env) "GET") as [|Hg];
    [simpl; discriminate|].
  destruct (String.eqb_spec (resolve_method env) "HEAD") as [|Hh];
    [simpl; discriminate|].
  simpl. destruct (HTTP_BODY env) as [[|c s]|]; simpl; try discriminate.
  intros E. injection E as <-. repeat split; try assumption. discriminate.
Qed.

(** X7.  The configured body is absent whenever the upper-cased method is GET
    or HEAD, in particular when [HTTP_METHOD] is not set; a body that is
    configured is the non-empty [HTTP_BODY].  So no transport call the
    script ever makes has method GET or HEAD and a body. *)
Theorem read_requests_carry_no_body
    (env : Env) (w0 : World) (cfg : Config) (w1 : World) :
  load_config env w0 = (Normal cfg, w1) ->
  method cfg = toUpperCase (HTTP_METHOD env ?? "GET")
  /\ (method cfg = "GET" \/ method cfg = "HEAD" -> body cfg = None)
  /\ (HTTP_METHOD env = None -> method cfg = "GET" /\ body cfg = None)
  /\ (forall b, body cfg = Some b ->
        HTTP_BODY env = Some b /\ b <> ""
        /\ method cfg <> "GET" /\ method cfg <> "HEAD")
  /\ (forall ts e,
        In e (trace (iterate cfg ts initial_world)) -> ~ bodied_read e).
Proof.
  intros H. destruct (load_config_fields env w0 cfg w1 H) as (_ & Hm & Hb).
  assert (Hread : method cfg = "GET" \/ method cfg = "HEAD" -> body cfg = None).
  { rewrite Hm, Hb. apply resolve_body_read. }
  split; [exact Hm|]. split; [exact Hread|]. split; [|split].
  - intros Hn.
    assert (Hg : method cfg = "GET")
      by (rewrite Hm; unfold resolve_method; rewrite Hn; reflexivity).
    split; [exact Hg | apply Hread; left; exact Hg].
  - intros b. rewrite Hb, Hm. apply resolve_body_some.
  - intros ts e He.
    rewrite iterate_trace in He. simpl in He.
    apply events_of_invocations in He.
    destruct He as [-> | [-> | (t & ->)]]; simpl; try tauto.
    destruct (body cfg) as [b|] eqn:Eb; [|tauto].
    intros Hr. specialize (Hread Hr). congruence.
Qed.

Lemma read_requests_carry_no_body_witness :
  load_config (bodyEnv (Some "get") (Some "{}")) initial_world
  = (Normal {| targetUrl := Some "http://localhost:3000/items";
               method := "GET"; headers := JObject []; body := None |},
     initial_world)
  /\ body {| targetUrl := Some "http://localhost:3000/items";
             method := "GET"; headers := JObject []; body := None |} = None.
Proof.
  split; [reflexivity|].
  destruct (read_requests_carry_no_body (bodyEnv (Some "get") (Some "{}"))
              initial_world _ initial_world eq_refl) as (_ & Hread & _).
  apply Hread. left. reflexivity.
Defined.

Example post_request_keeps_its_body :
  fst (load_config (bodyEnv (Some "post") (Some "{}")) initial_world)
  = Normal {| targetUrl := Some "http://localhost:3000/items";
              method := "POST"; headers := JObject []; body := Some "{}" |}.
Proof. reflexivity. Qed.

(** X8.  [TARGET_URL] wins over [API_BASE_URL] as soon as it is defined, even
    when it is empty: an empty [TARGET_URL] turns every invocation into a
    skip although [API_BASE_URL] is set.  A non-empty [TARGET_URL], or a
    non-empty [API_BASE_URL] with [TARGET_URL] absent, is where every
    transport call goes. *)
Theorem target_url_precedence
    (env : Env) (w0 : World) (cfg : Config) (w1 : World) :
  load_config env w0 = (Normal cfg, w1) ->
  (forall u, TARGET_URL env = Some u -> targetUrl cfg = Some u)
  /\ (TARGET_URL env = None -> targetUrl cfg = API_BASE_URL env)
  /\ (TARGET_URL env = Some "" ->
      forall t w,
        trace (snd (runScenario cfg t w))
        = trace w ++ [ConsoleLog skip_notice; Sleep 1])
  /\ (forall u, u <> "" ->
      TARGET_URL env = Some u
      \/ (TARGET_URL env = None /\ API_BASE_URL env = Some u) ->
      forall t w,
        trace (snd (runScenario cfg t w))
        = trace w ++ [HttpRequest (method cfg) u (body cfg) (headers cfg) t;
                      Sleep 1]).
Proof.
  intros H. destruct (load_config_fields env w0 cfg w1 H) as (Ht & _ & _).
  split; [|split; [|split]].
  - intros u Hu. rewrite Ht, Hu. reflexivity.
  - intros Hn. rewrite Ht, Hn. reflexivity.
  - intros He t w. rewrite invocation_trace. unfold invocation_events.
    rewrite Ht, He. reflexivity.
  - intros u Hu Hcase t w. rewrite invocation_trace. unfold invocation_events.
    assert (Hc : targetUrl cfg = Some u).
    { rewrite Ht. destruct Hcase as [-> | [-> ->]]; reflexivity. }
    rewrite Hc. destruct u; [congruence | reflexivity].
Qed.

Lemma target_url_precedence_witness :
  load_config (targetEnv (Some "") (Some "http://api.local")) initial_world
  = (Normal {| targetUrl := Some ""; method := "GET"; headers := JObject [];
               body := None |}, initial_world)
  /\ TARGET_URL (targetEnv (Some "") (Some "http://api.local")) = Some ""
  /\ trace (snd (runScenario
                   {| targetUrl := Some ""; method := "GET";
                      headers := JObject []; body := None |}
                   (responds 200) initial_world))
     = trace initial_world ++ [ConsoleLog skip_notice; Sleep 1].
Proof.
  split; [reflexivity|]. split; [reflexivity|].
  destruct (target_url_precedence
              (targetEnv (Some "") (Some "http://api.local"))
              initial_world _ initial_world eq_refl) as (_ & _ & Hskip & _).
  apply Hskip. reflexivity.
Defined.

(* --------------------------------------------------------------------- *)
(** ** The minimal script *)
(* --------------------------------------------------------------------- *)

(** X9.  In the minimal script the transport call is not guarded: when it
    raises, the exception leaves [runScenario], and neither the check nor
    the pause happens.  When it returns, one check named
    [status is < 500] is recorded, passing exactly for a non-zero status
    below 500, followed by the pause.  The extended script, on the same
    failure, completes normally and pauses. *)
Theorem minimal_script_propagates_transport_failure
    (cfg : Config) (w : World) :
  truthy_string (targetUrl cfg) = true ->
  let target := targetUrl cfg ?? "" in
  (forall e,
     let out := MinimalScript.runScenario cfg (Raises e) w in
     fst out = Throw e
     /\ same_aggregates w (snd out)
     /\ trace (snd out)
        = trace w ++ [HttpRequest (method cfg) target (body cfg) (headers cfg)
                        (Raises e)]
     /\ fst (runScenario cfg (Raises e) w) = Normal tt
     /\ pauses (snd (runScenario cfg (Raises e) w)) = S (pauses w))
  /\ (forall r,
     let out := MinimalScript.runScenario cfg (Responds r) w in
     fst out = Normal tt
     /\ checks (snd out)
        = checks w ++ [("status is < 500", Minimal.check_passes (res_status r))]
     /\ (Minimal.check_passes (res_status r) = true
         <-> res_status r <> 0 /\ res_status r < 500)
     /\ trace (snd out)
        = trace w ++ [HttpRequest (method cfg) target (body cfg) (headers cfg)
                        (Responds r); Sleep 1]).
Proof.
  intros H target. split.
  - intros e out. subst out. unfold MinimalScript.runScenario. rewrite H.
    simpl. split; [reflexivity|]. split; [repeat split|].
    split; [reflexivity|].
    split; [apply (runScenario_raises cfg e w H)|].
    unfold pauses. rewrite invocation_trace, count_where_app.
    unfold invocation_events. rewrite H. simpl. lia.
  - intros r out. subst out. unfold MinimalScript.runScenario. rewrite H.
    simpl. split; [reflexivity|]. split; [reflexivity|]. split.
    + unfold Minimal.check_passes.
      rewrite andb_true_iff, negb_true_iff, Z.eqb_neq, Z.ltb_lt. reflexivity.
    + rewrite <- app_assoc. reflexivity.
Qed.

Lemma minimal_script_propagates_transport_failure_witness :
  truthy_string (targetUrl sample_config) = true
  /\ fst (MinimalScript.runScenario sample_config
            (Raises {| thrown_message := Some "EOF" |}) initial_world)
     = Throw {| thrown_message := Some "EOF" |}.
Proof.
  split; [reflexivity|].
  destruct (minimal_script_propagates_transport_failure sample_config
              initial_world eq_refl) as [H _].
  apply (H {| thrown_message := Some "EOF" |}).
Defined.

(* --------------------------------------------------------------------- *)
(** ** First-seen order *)
(* --------------------------------------------------------------------- *)

Lemma first_seen_elem l x : x ∈ first_seen l <-> x ∈ l.
Proof.
  induction l as [|a l IH]; [reflexivity|].
  simpl. rewrite !elem_of_cons, list_elem_of_filter, IH.
  destruct (decide (x = a)); tauto.
Qed.

Lemma first_seen_NoDup l : NoDup (first_seen l).
Proof.
  induction l as [|a l IH]; [constructor|].
  simpl. apply NoDup_cons. split.
  - rewrite list_elem_of_filter. tauto.
  - apply NoDup_filter, IH.
Qed.

(** Scanning one more status: it is appended unless already listed. *)
Lemma first_seen_snoc l x :
  first_seen (l ++ [x])
  = if bool_decide (x ∈ first_seen l) then first_seen l else first_seen l ++ [x].
Proof.
  induction l as [|a l IH].
  - rewrite bool_decide_eq_false_2 by (simpl; apply not_elem_of_nil).
    reflexivity.
  - change (first_seen ((a :: l) ++ [x]))
      with (a :: filter (fun y => y <> a) (first_seen (l ++ [x]))).
    change (first_seen (a :: l)) with (a :: filter (fun y => y <> a) (first_seen l)).
    rewrite IH. destruct (decide (x ∈ first_seen l)) as [Hin | Hnin].
    + rewrite bool_decide_eq_true_2 by exact Hin.
      rewrite bool_decide_eq_true_2; [reflexivity|].
      rewrite elem_of_cons, list_elem_of_filter.
      destruct (decide (x = a)); tauto.
    + rewrite bool_decide_eq_false_2 by exact Hnin.
      rewrite filter_app. destruct (decide (x = a)) as [-> | Hne].
      * rewrite filter_cons_False by tauto. rewrite filter_nil, app_nil_r.
        rewrite bool_decide_eq_true_2 by (apply elem_of_cons; tauto).
        reflexivity.
      * rewrite filter_cons_True by exact Hne. rewrite filter_nil.
        rewrite bool_decide_eq_false_2; [reflexivity|].
        rewrite elem_of_cons, list_elem_of_filter. tauto.
Qed.

(* --------------------------------------------------------------------- *)
(** ** The aggregates stay consistent *)
(* --------------------------------------------------------------------- *)

Lemma counted_counter_of hit w w' :
  counted hit w w' ->
  forall b, counter_of b w'
            = (counter_of b w + if bool_decide (hit = Some b) then 1 else 0)%nat.
Proof.
  intros (Ha & Hc & Hs) b. destruct hit as [[]|], b; simpl; lia.
Qed.

Lemma hit_falls_in st b :
  bool_decide ((if (st =? 0) || (st >=? 400) then Some (bucket_of st) else None)
               = Some b)
  = falls_in b st.
Proof.
  unfold falls_in. destruct ((st =? 0) || (st >=? 400)).
  - change (true && bool_decide (bucket_of st = b))
      with (bool_decide (bucket_of st = b)).
    apply bool_decide_ext. split; congruence.
  - reflexivity.
Qed.

Lemma capped_push_min l s c :
  length l = Nat.min c 3 -> length (capped_push l s) = Nat.min (c + 1) 3.
Proof.
  intros H. unfold capped_push.
  destruct (Nat.ltb_spec (length l) 3); [rewrite length_app; simpl|]; lia.
Qed.

Lemma consistent_initial cfg : consistent cfg initial_world.
Proof.
  constructor.
  - intros k. apply lookup_empty.
  - reflexivity.
  - reflexivity.
  - intros []; reflexivity.
  - intros []; reflexivity.
  - intros []; constructor.
  - reflexivity.
Qed.

Lemma consistent_after_response cfg r w :
  truthy_string (targetUrl cfg) = true ->
  consistent cfg w -> consistent cfg (snd (runScenario cfg (Responds r) w)).
Proof.
  intros H [I1 I2 I3 I4 I5 I6 I7].
  destruct (runScenario_responds cfg r w H)
    as (_ & Hc & Ho & Htr & Hck & Hcnt & Hsm & Ht).
  set (w' := snd (runScenario cfg (Responds r) w)) in *.
  set (st := res_status r) in *.
  assert (Hf : transport_failures w' = transport_failures w).
  { rewrite (transport_failures_app _ _ _ Ht). simpl. lia. }
  assert (Hcounters : forall b,
            counter_of b w'
            = (counter_of b w + if falls_in b st then 1 else 0)%nat).
  { intros b. rewrite (counted_counter_of _ _ _ Hcnt b), hit_falls_in.
    reflexivity. }
  constructor.
  - intros k. rewrite Hc, Htr. unfold occurrences in *.
    rewrite count_where_app. simpl.
    destruct (decide (k = st)) as [-> | Hk].
    + rewrite lookup_insert_eq, Z.eqb_refl, (I1 st).
      destruct (Nat.eqb_spec (count_where (fun x => x =? st) (statusTrend w)) 0)
        as [E | E]; simpl.
      * rewrite E. reflexivity.
      * match goal with
        | |- context [(?n =? 0)%nat] => destruct (Nat.eqb_spec n 0)
        end; [lia | reflexivity].
    + rewrite lookup_insert_ne by congruence.
      assert (E : (st =? k) = false) by (apply Z.eqb_neq; congruence).
      rewrite E, Nat.add_0_r. apply I1.
  - rewrite Hc, total_count_bump, Htr, length_app, I2. reflexivity.
  - rewrite Ho, Htr, first_seen_snoc, <- I3. reflexivity.
  - intros b. rewrite Hcounters, Htr, count_where_app, Hf, (I4 b). simpl. lia.
  - intros b. rewrite (Hsm b), hit_falls_in, Hcounters.
    destruct (falls_in b st).
    + apply capped_push_min, I5.
    + rewrite Nat.add_0_r. apply I5.
  - intros b. rewrite (Hsm b).
    destruct (bool_decide (_ = Some b)) eqn:E; [|apply I6].
    unfold capped_push. destruct (length _ <? 3)%nat; [|apply I6].
    apply Forall_app. split; [apply I6|].
    constructor; [|constructor]. split; [|reflexivity].
    apply bool_decide_eq_true_1 in E. simpl.
    destruct ((st =? 0) || (st >=? 400)) eqn:Eerr; [|discriminate E].
    injection E as <-. apply bucket_of_spec, error_status_test, Eerr.
  - rewrite Hck, Htr, map_app, I7. reflexivity.
Qed.

Lemma consistent_after_failure cfg e w :
  truthy_string (targetUrl cfg) = true ->
  consistent cfg w -> consistent cfg (snd (runScenario cfg (Raises e) w)).
Proof.
  intros H [I1 I2 I3 I4 I5 I6 I7].
  destruct (runScenario_raises cfg e w H)
    as (_ & Hc & Ho & Htr & Hck & Hcnt & Hsm & Ht).
  set (w' := snd (runScenario cfg (Raises e) w)) in *.
  assert (Hf : transport_failures w' = S (transport_failures w)).
  { rewrite (transport_failures_app _ _ _ Ht). simpl. lia. }
  assert (Hcounters : forall b,
            counter_of b w'
            = (counter_of b w + if bool_decide (b = server) then 1 else 0)%nat).
  { intros b. rewrite (counted_counter_of _ _ _ Hcnt b). destruct b; reflexivity. }
  constructor.
  - intros k. rewrite Hc, Htr. apply I1.
  - rewrite Hc, Htr. exact I2.
  - rewrite Ho, Htr. exact I3.
  - intros b. rewrite Hcounters, Htr, Hf, (I4 b).
    destruct (bool_decide (b = server)); lia.
  - intros b. rewrite (Hsm b), Hcounters.
    destruct b; simpl; try (rewrite Nat.add_0_r; apply (I5 auth) || apply (I5 client)).
    apply capped_push_min, (I5 server).
  - intros b. rewrite (Hsm b).
    destruct (bool_decide (_ = Some b)) eqn:E; [|apply I6].
    unfold capped_push. destruct (length _ <? 3)%nat; [|apply I6].
    apply Forall_app. split; [apply I6|].
    constructor; [|constructor]. split; [|reflexivity].
    apply bool_decide_eq_true_1 in E. injection E as <-. simpl. lia.
  - rewrite Hck, Htr. exact I7.
Qed.

Lemma consistent_after_skip cfg t w :
  truthy_string (targetUrl cfg) = false ->
  consistent cfg w -> consistent cfg (snd (runScenario cfg t w)).
Proof.
  intros H [I1 I2 I3 I4 I5 I6 I7]. rewrite runScenario_skips by exact H.
  assert (Hf : forall w0 : World,
            transport_failures
              (with_trace (fun tr => tr ++ [Sleep 1])
                 (with_trace (fun tr => tr ++ [ConsoleLog skip_notice]) w0))
            = transport_failures w0).
  { intros w0. unfold transport_failures. simpl. rewrite !filter_app. simpl.
    rewrite !app_nil_r. reflexivity. }
  constructor; simpl; try assumption.
  intros b. rewrite Hf. apply (I4 b).
Qed.

Lemma consistent_step cfg t w :
  consistent cfg w -> consistent cfg (snd (runScenario cfg t w)).
Proof.
  destruct (truthy_string (targetUrl cfg)) eqn:H.
  - destruct t; [apply consistent_after_response | apply consistent_after_failure];
      exact H.
  - apply consistent_after_skip. exact H.
Qed.

Lemma consistent_iterate cfg ts : forall w,
  consistent cfg w -> consistent cfg (iterate cfg ts w).
Proof.
  induction ts as [|t ts IH]; intros w Hw; [exact Hw|].
  rewrite iterate_cons. apply IH, consistent_step, Hw.
Qed.

Lemma consistent_reachable cfg ts : consistent cfg (iterate cfg ts initial_world).
Proof. apply consistent_iterate, consistent_initial. Qed.

(* --------------------------------------------------------------------- *)
(** ** What the aggregates say about the run *)
(* --------------------------------------------------------------------- *)

Lemma occurrences_zero k l : occurrences k l = 0%nat <-> k ∉ l.
Proof.
  unfold occurrences. induction l as [|x l IH]; simpl.
  - split; [intros _; apply not_elem_of_nil | reflexivity].
  - rewrite elem_of_cons. destruct (Z.eqb_spec x k) as [-> | Hne].
    + split; [discriminate | tauto].
    + simpl. rewrite IH. split; [intros H [E | Hin]; [congruence | tauto] | tauto].
Qed.

Lemma invocation_trend cfg t w :
  truthy_string (targetUrl cfg) = true ->
  statusTrend (snd (runScenario cfg t w))
  = statusTrend w ++ response_statuses [t]
  /\ transport_failures (snd (runScenario cfg t w))
     = (transport_failures w + raising [t])%nat.
Proof.
  intros H. destruct t as [r|e].
  - destruct (runScenario_responds cfg r w H)
      as (_ & _ & _ & Htr & _ & _ & _ & Ht).
    split; [exact Htr|]. rewrite (transport_failures_app _ _ _ Ht). reflexivity.
  - destruct (runScenario_raises cfg e w H)
      as (_ & _ & _ & Htr & _ & _ & _ & Ht).
    split; [rewrite Htr; simpl; now rewrite app_nil_r|].
    rewrite (transport_failures_app _ _ _ Ht). reflexivity.
Qed.

Lemma response_statuses_cons t ts :
  response_statuses (t :: ts) = response_statuses [t] ++ response_statuses ts.
Proof. destruct t; reflexivity. Qed.

Lemma raising_cons t ts : raising (t :: ts) = (raising [t] + raising ts)%nat.
Proof. destruct t; reflexivity. Qed.

Lemma iterate_trend cfg ts : forall w,
  truthy_string (targetUrl cfg) = true ->
  statusTrend (iterate cfg ts w) = statusTrend w ++ response_statuses ts
  /\ transport_failures (iterate cfg ts w)
     = (transport_failures w + raising ts)%nat.
Proof.
  induction ts as [|t ts IH]; intros w H.
  - simpl. rewrite app_nil_r. split; [reflexivity | lia].
  - rewrite iterate_cons. destruct (IH (snd (runScenario cfg t w)) H) as [I1 I2].
    destruct (invocation_trend cfg t w H) as [H1 H2].
    rewrite (response_statuses_cons t ts), (raising_cons t ts).
    rewrite I1, I2, H1, H2, <- app_assoc. split; [reflexivity | lia].
Qed.

Lemma responses_and_failures ts :
  (length (response_statuses ts) + raising ts = length ts)%nat.
Proof. induction ts as [|[r|e] ts IH]; simpl; lia. Qed.

(** X10.  [statusOrder] lists the distinct statuses of the responses, each once,
    in the order of their first occurrence; its members are exactly the
    keys of [statusCounts], and each of them has a count of at least one
    (so the [?? 0] of the summary's top codes never applies). *)
Theorem status_order_lists_distinct_statuses (cfg : Config) (ts : list Transport) :
  statusOrder (iterate cfg ts initial_world)
  = first_seen (statusTrend (iterate cfg ts initial_world))
  /\ NoDup (statusOrder (iterate cfg ts initial_world))
  /\ (forall k, k ∈ statusOrder (iterate cfg ts initial_world)
                <-> is_Some (statusCounts (iterate cfg ts initial_world) !! k))
  /\ (forall k, In k (statusOrder (iterate cfg ts initial_world)) ->
        exists n, statusCounts (iterate cfg ts initial_world) !! k = Some n
                  /\ (1 <= n)%nat)
  /\ (truthy_string (targetUrl cfg) = true ->
      statusTrend (iterate cfg ts initial_world) = response_statuses ts).
Proof.
  destruct (consistent_reachable cfg ts) as [I1 _ I3 _ _ _ _].
  set (w := iterate cfg ts initial_world) in *.
  assert (Hmem : forall k, k ∈ statusOrder w <-> is_Some (statusCounts w !! k)).
  { intros k. rewrite I3, first_seen_elem, (I1 k).
    destruct (Nat.eqb_spec (occurrences k (statusTrend w)) 0) as [E | E].
    - apply occurrences_zero in E. split; [tauto | intros [n Hn]; discriminate].
    - split; [eauto|]. intros _. destruct (decide (k ∈ statusTrend w)); [assumption|].
      exfalso. apply E, occurrences_zero. assumption. }
  split; [exact I3|]. split; [rewrite I3; apply first_seen_NoDup|].
  split; [exact Hmem|]. split.
  - intros k Hk. apply list_elem_of_In, Hmem in Hk. rewrite (I1 k) in *.
    destruct (Nat.eqb_spec (occurrences k (statusTrend w)) 0) as [E | E].
    + destruct Hk as [n Hn]. discriminate.
    + eexists. split; [reflexivity | lia].
  - intros H. subst w. destruct (iterate_trend cfg ts initial_world H) as [Ht _].
    exact Ht.
Qed.

(** X11.  With a target configured, after any invocations from the initial
    state [statusCounts[k]] is the number of responses that had status
    [k], and [k] is a key only if there was one; the counts add up to the
    number of responses, which with the number of raised transport calls
    is the number of invocations. *)
Theorem status_counts_count_responses (cfg : Config) (ts : list Transport) :
  truthy_string (targetUrl cfg) = true ->
  (forall k,
     nullish (statusCounts (iterate cfg ts initial_world) !! k) 0%nat
     = occurrences k (response_statuses ts)
     /\ (statusCounts (iterate cfg ts initial_world) !! k = None
         <-> ~ In k (response_statuses ts)))
  /\ total_count (statusCounts (iterate cfg ts initial_world))
     = length (response_statuses ts)
  /\ transport_failures (iterate cfg ts initial_world) = raising ts
  /\ (length (response_statuses ts) + raising ts = length ts)%nat.
Proof.
  intros H. destruct (consistent_reachable cfg ts) as [I1 I2 _ _ _ _ _].
  destruct (iterate_trend cfg ts initial_world H) as [Ht Hf].
  simpl in Ht, Hf. rewrite Ht in I1, I2.
  split; [|split; [exact I2|split; [exact Hf | apply responses_and_failures]]].
  intros k. rewrite (I1 k), <- list_elem_of_In, <- occurrences_zero.
  destruct (Nat.eqb_spec (occurrences k (response_statuses ts)) 0) as [E | E].
  - rewrite E. split; [reflexivity | tauto].
  - split; [reflexivity|]. split; [discriminate | tauto].
Qed.

Lemma status_counts_count_responses_witness :
  truthy_string (targetUrl sample_config) = true
  /\ nullish
       (statusCounts
          (iterate sample_config
             [responds 200; responds 404; responds 200;
              Raises {| thrown_message := None |}] initial_world) !! 200)
       0%nat
     = 2%nat.
Proof.
  split; [reflexivity|].
  destruct (status_counts_count_responses sample_config
              [responds 200; responds 404; responds 200;
               Raises {| thrown_message := None |}] eq_refl) as (H & _).
  exact (proj1 (H 200)).
Defined.

Lemma count_where_ext {A} (p q : A -> bool) l :
  (forall x, p x = q x) -> count_where p l = count_where q l.
Proof.
  intros H. induction l as [|x l IH]; simpl; [reflexivity | now rewrite H, IH].
Qed.

Lemma falls_in_auth st : falls_in auth st = (st =? 401) || (st =? 403).
Proof.
  unfold falls_in, bucket_of.
  destruct (Z.eqb_spec st 401) as [->|]; [reflexivity|].
  destruct (Z.eqb_spec st 403) as [->|]; [reflexivity|].
  simpl. destruct ((st >=? 500) || (st =? 0));
    destruct ((st =? 0) || (st >=? 400)); reflexivity.
Qed.

Lemma falls_in_server st : falls_in server st = (st =? 0) || (st >=? 500).
Proof.
  unfold falls_in, bucket_of.
  destruct (Z.eqb_spec st 401) as [->|]; [reflexivity|].
  destruct (Z.eqb_spec st 403) as [->|]; [reflexivity|].
  simpl. destruct (Z.eqb_spec st 0) as [->|]; [reflexivity|].
  destruct (Z.geb_spec st 500); simpl.
  - destruct (Z.geb_spec st 400); [reflexivity | lia].
  - destruct (st >=? 400); reflexivity.
Qed.

Lemma falls_in_client st :
  falls_in client st
  = (400 <=? st) && (st <? 500) && negb ((st =? 401) || (st =? 403)).
Proof.
  unfold falls_in, bucket_of.
  destruct (Z.eqb_spec st 401) as [->|]; [reflexivity|].
  destruct (Z.eqb_spec st 403) as [->|]; [reflexivity|].
  simpl. destruct (Z.eqb_spec st 0) as [->|]; [reflexivity|].
  destruct (Z.geb_spec st 500); simpl.
  - destruct (Z.ltb_spec st 500); [lia|].
    destruct (st >=? 400), (400 <=? st); reflexivity.
  - destruct (Z.geb_spec st 400), (Z.leb_spec 400 st), (Z.ltb_spec st 500);
      try lia; reflexivity.
Qed.

(** X12.  With a target configured, the three counters are exact counts over
    the run: [auth_errors] counts the responses with status 401 or 403,
    [client_errors] the other responses from 400 to 499, and
    [server_errors] the responses with status 0 or at least 500 plus the
    transport calls that raised. *)
Theorem error_counters_count_error_responses (cfg : Config) (ts : list Transport) :
  truthy_string (targetUrl cfg) = true ->
  authErrorCounter (iterate cfg ts initial_world)
  = count_where (fun st => (st =? 401) || (st =? 403)) (response_statuses ts)
  /\ clientErrorCounter (iterate cfg ts initial_world)
     = count_where
         (fun st => (400 <=? st) && (st <? 500)
                    && negb ((st =? 401) || (st =? 403)))
         (response_statuses ts)
  /\ serverErrorCounter (iterate cfg ts initial_world)
     = (count_where (fun st : Z => ((st =? 0) || (st >=? 500))%Z)
                    (response_statuses ts)
        + raising ts)%nat.
Proof.
  intros H. destruct (consistent_reachable cfg ts) as [_ _ _ I4 _ _ _].
  destruct (iterate_trend cfg ts initial_world H) as [Ht Hf].
  simpl in Ht, Hf. rewrite Ht in I4.
  pose proof (I4 auth) as Ha. pose proof (I4 client) as Hc.
  pose proof (I4 server) as Hs. simpl in Ha, Hc, Hs.
  rewrite Hf in Hs. rewrite Nat.add_0_r in Ha, Hc.
  rewrite Ha, Hc, Hs.
  rewrite (count_where_ext _ _ _ falls_in_auth),
          (count_where_ext _ _ _ falls_in_client),
          (count_where_ext _ _ _ falls_in_server).
  repeat split.
Qed.

Lemma error_counters_count_error_responses_witness :
  truthy_string (targetUrl sample_config) = true
  /\ serverErrorCounter
       (iterate sample_config
          [responds 503; Raises {| thrown_message := None |}; responds 200]
          initial_world) = 2%nat.
Proof.
  split; [reflexivity|].
  apply (error_counters_count_error_responses sample_config
           [responds 503; Raises {| thrown_message := None |}; responds 200]
           eq_refl).
Defined.

(** X13.  Whatever the invocations, each bucket holds as many samples as its
    counter says, up to three: its length is the minimum of the counter
    and 3, so a bucket is empty exactly when its counter is zero. *)
Theorem bucket_length_is_capped_counter
    (cfg : Config) (ts : list Transport) (b : Bucket) :
  length (get_bucket b (dataErrors (iterate cfg ts initial_world)))
  = Nat.min (counter_of b (iterate cfg ts initial_world)) 3
  /\ (get_bucket b (dataErrors (iterate cfg ts initial_world)) = []
      <-> counter_of b (iterate cfg ts initial_world) = 0%nat).
Proof.
  destruct (consistent_reachable cfg ts) as [_ _ _ _ I5 _ _].
  split; [apply I5|]. specialize (I5 b).
  destruct (get_bucket b (dataErrors (iterate cfg ts initial_world)));
    simpl in I5; split; intros E;
    try reflexivity; try discriminate E;
    try (rewrite ?E in I5; simpl in I5; lia).
Qed.

(** X14.  Every sample kept in a bucket belongs there and names the configured
    target: auth samples have status 401 or 403, client samples another
    status from 400 to 499, server samples status 0 or at least 500. *)
Theorem samples_belong_to_their_bucket
    (cfg : Config) (ts : list Transport) (b : Bucket) :
  Forall (fun s => spec_bucket (status s) b /\ url s = targetUrl cfg ?? "")
         (get_bucket b (dataErrors (iterate cfg ts initial_world)))
  /\ Forall (fun s => status s = 401 \/ status s = 403)
            (de_auth (dataErrors (iterate cfg ts initial_world)))
  /\ Forall (fun s => 400 <= status s < 500 /\ status s <> 401 /\ status s <> 403)
            (de_client (dataErrors (iterate cfg ts initial_world)))
  /\ Forall (fun s => status s = 0 \/ 500 <= status s)
            (de_server (dataErrors (iterate cfg ts initial_world))).
Proof.
  destruct (consistent_reachable cfg ts) as [_ _ _ _ _ I6 _].
  split; [apply I6|]. split; [|split].
  - eapply Forall_impl; [apply (I6 auth)|]. simpl. tauto.
  - eapply Forall_impl; [apply (I6 client)|]. simpl. intros s. lia.
  - eapply Forall_impl; [apply (I6 server)|]. simpl. intros s. lia.
Qed.

Lemma failed_check_is_classified st :
  (if negb (check_passes st) then 1 else 0)%nat
  = ((if falls_in auth st then 1 else 0)
     + (if falls_in client st then 1 else 0)
     + (if falls_in server st then 1 else 0))%nat.
Proof.
  unfold falls_in, check_passes.
  destruct (Z.eqb_spec st 0) as [->|]; [reflexivity|]. simpl.
  destruct (Z.geb_spec st 400), (Z.ltb_spec st 400); try lia; simpl.
  - destruct (bucket_of st); reflexivity.
  - reflexivity.
Qed.

Lemma failed_checks_by_bucket l :
  count_where (fun c : string * bool => negb (snd c))
    (map (fun st => (check_name, check_passes st)) l)
  = (count_where (falls_in auth) l + count_where (falls_in client) l
     + count_where (falls_in server) l)%nat.
Proof.
  induction l as [|st l IH]; [reflexivity|].
  simpl. rewrite IH. pose proof (failed_check_is_classified st). lia.
Qed.

(** X15.  The check fails exactly on the statuses that are bucketed (0, or 400
    and above).  So, whatever the invocations, the number of failed
    checks plus the number of raised transport calls is the sum of the
    three error counters, and there is one check, named
    [status is < 400], per response. *)
Theorem failed_checks_are_the_classified_responses
    (cfg : Config) (ts : list Transport) :
  (failed_checks (iterate cfg ts initial_world)
   + transport_failures (iterate cfg ts initial_world)
   = authErrorCounter (iterate cfg ts initial_world)
     + clientErrorCounter (iterate cfg ts initial_world)
     + serverErrorCounter (iterate cfg ts initial_world))%nat
  /\ (forall st, check_passes st = false <-> st = 0 \/ st >= 400)
  /\ length (checks (iterate cfg ts initial_world))
     = length (statusTrend (iterate cfg ts initial_world))
  /\ Forall (fun c => fst c = "status is < 400")
            (checks (iterate cfg ts initial_world)).
Proof.
  destruct (consistent_reachable cfg ts) as [_ _ _ I4 _ _ I7].
  split; [|split; [|split]].
  - unfold failed_checks. rewrite I7, failed_checks_by_bucket.
    pose proof (I4 auth) as Ha. pose proof (I4 client) as Hc.
    pose proof (I4 server) as Hs. simpl in Ha, Hc, Hs. lia.
  - intros st. unfold check_passes.
    rewrite andb_false_iff, negb_false_iff, Z.eqb_eq, Z.ltb_ge. lia.
  - rewrite I7, length_map. reflexivity.
  - rewrite I7. apply Forall_forall. intros c Hc.
    apply list_elem_of_In, in_map_iff in Hc.
    destruct Hc as (st & <- & _). reflexivity.
Qed.

(** X16.  The line about failures without samples can only be rendered by a
    runtime that recorded no error at all: if it is in the Errors section
    after any invocations from the initial state, the three counters are
    zero, no transport call raised and no check failed. *)
Theorem diagnostic_line_means_nothing_was_classified
    (host : Host) (cfg : Config) (ts : list Transport) (data : SummaryData) :
  In no_samples_line (errorsSection host (iterate cfg ts initial_world) data) ->
  authErrorCounter (iterate cfg ts initial_world) = 0%nat
  /\ clientErrorCounter (iterate cfg ts initial_world) = 0%nat
  /\ serverErrorCounter (iterate cfg ts initial_world) = 0%nat
  /\ transport_failures (iterate cfg ts initial_world) = 0%nat
  /\ failed_checks (iterate cfg ts initial_world) = 0%nat.
Proof.
  intros Hin. apply diagnostic_line_guard in Hin.
  destruct Hin as (_ & Ha & Hc & Hs).
  destruct (consistent_reachable cfg ts) as [_ _ _ I4 I5 _ I7].
  set (w := iterate cfg ts initial_world) in *.
  pose proof (I5 auth) as La. pose proof (I5 client) as Lc.
  pose proof (I5 server) as Ls. simpl in La, Lc, Ls.
  rewrite Ha in La. rewrite Hc in Lc. rewrite Hs in Ls. simpl in La, Lc, Ls.
  pose proof (I4 auth) as Ca. pose proof (I4 client) as Cc.
  pose proof (I4 server) as Cs. simpl in Ca, Cc, Cs.
  assert (Hf : failed_checks w
               = (count_where (falls_in auth) (statusTrend w)
                  + count_where (falls_in client) (statusTrend w)
                  + count_where (falls_in server) (statusTrend w))%nat).
  { unfold failed_checks. rewrite I7. apply failed_checks_by_bucket. }
  repeat split; lia.
Qed.

Lemma diagnostic_line_means_nothing_was_classified_witness :
  In no_samples_line
     (errorsSection RefHost.host
        (iterate sample_config [responds 200] initial_world)
        (failing_data (1 # 5)))
  /\ failed_checks (iterate sample_config [responds 200] initial_world) = 0%nat.
Proof.
  assert (H : In no_samples_line
                (errorsSection RefHost.host
                   (iterate sample_config [responds 200] initial_world)
                   (failing_data (1 # 5)))).
  { vm_compute. tauto. }
  split; [exact H|].
  apply (diagnostic_line_means_nothing_was_classified RefHost.host
           sample_config [responds 200] (failing_data (1 # 5)) H).
Defined.

(* --------------------------------------------------------------------- *)
(** ** What the reporter does to the world *)
(* --------------------------------------------------------------------- *)

(** X17.  [handleSummary] never touches the aggregates; all it does besides
    returning the text is append the advisory warnings to the console, and
    only when thresholds are not enforced.  The advisory re-check reads
    the numbers off the metric objects themselves: a summary that carries
    its failed rate and its p95 only under [values] gets no warning,
    however high they are, although the Errors section renders that
    rate. *)
Theorem reporter_only_logs_advisories
    (host : Host) (enforce : bool) (data : SummaryData) (w : World) :
  same_aggregates w (snd (handleSummary host enforce data w))
  /\ trace (snd (handleSummary host enforce data w))
     = trace w ++ (if enforce then [] else advisory_events host data)
  /\ (prop_of data "http_req_failed" "rate" = None ->
      prop_of data "http_req_duration" "p(95)" = None ->
      advisory_events host data = []
      /\ rateFailed data = value_of data "http_req_failed" "rate").
Proof.
  split; [|split].
  - unfold handleSummary, advisory_warnings.
    destruct enforce; simpl; [repeat split|].
    unfold bind, console_warn, emit, modify, ret, get.
    destruct (prop_of data "http_req_failed" "rate") as [r|];
      destruct (prop_of data "http_req_duration" "p(95)") as [p|];
      try destruct (gt r lit_0_05); try destruct (gt p (ofZ 2200));
      repeat split.
  - unfold handleSummary, advisory_warnings, advisory_events.
    destruct enforce; simpl; [now rewrite app_nil_r|].
    unfold bind, console_warn, emit, modify, ret, get.
    destruct (prop_of data "http_req_failed" "rate") as [r|];
      destruct (prop_of data "http_req_duration" "p(95)") as [p|];
      try destruct (gt r lit_0_05); try destruct (gt p (ofZ 2200));
      simpl; rewrite <- ?app_assoc, ?app_nil_r; reflexivity.
  - intros Hr Hp. unfold advisory_events, rateFailed. rewrite Hr, Hp.
    split; reflexivity.
Qed.

Example advisory_skips_rates_under_values :
  trace (snd (handleSummary RefHost.host false (failing_data 1) initial_world)) = []
  /\ rateFailed (failing_data 1) = Some (Finite 1).
Proof. split; reflexivity. Qed.

(* --------------------------------------------------------------------- *)
(** ** Headers: when resolution is silent *)
(* --------------------------------------------------------------------- *)

(** X18.  Header resolution leaves the world as it is, logging nothing, unless
    the blob is non-empty and [JSON.parse] throws on it: an absent or
    empty blob gives the empty mapping, a blob that parses gives the
    parsed value. *)
Theorem headers_resolution_is_silent_unless_malformed (env : Env) (w : World) :
  (HTTP_HEADERS env = None \/ HTTP_HEADERS env = Some "" ->
     resolve_headers env w = (Normal (JObject []), w))
  /\ (forall blob v,
        HTTP_HEADERS env = Some blob -> blob <> "" ->
        JSON.parse blob = Some v ->
        resolve_headers env w = (Normal v, w))
  /\ (snd (resolve_headers env w) <> w ->
      exists blob,
        HTTP_HEADERS env = Some blob /\ blob <> "" /\ JSON.parse blob = None).
Proof.
  split; [|split].
  - intros [H | H]; unfold resolve_headers; rewrite H; reflexivity.
  - intros blob v Hh Hne Hp. apply (parsed_headers_are_kept env blob v w Hh Hne Hp).
  - intros Hw. unfold resolve_headers, try_catch, JSON_parse in Hw.
    destruct (HTTP_HEADERS env) as [[|c s]|] eqn:E; simpl in Hw;
      try (exfalso; apply Hw; reflexivity).
    exists (String c s). split; [reflexivity|]. split; [discriminate|].
    destruct (JSON.parse (String c s)); [|reflexivity].
    exfalso. apply Hw. reflexivity.
Qed.

(* --------------------------------------------------------------------- *)
(** ** The success rate *)
(* --------------------------------------------------------------------- *)



(* --------------------------------------------------------------------- *)
(** ** Durations: edges *)
(* --------------------------------------------------------------------- *)

Lemma append_suffix_nonempty a b : b <> "" -> a +:+ b <> "".
Proof.
  intros Hb. destruct a as [|c a]; [exact Hb|].
  change (String c (a +:+ b) <> ""). discriminate.
Qed.

(** X20.  [formatDurationSeconds] never returns the empty string, whatever
    number it is given: there is always a minutes or a seconds token.  On
    the numbers that are not finite it returns [Infinitym], [NaNs] and
    (for minus infinity, clamped to one second) [1s]. *)
Theorem formatted_duration_is_never_empty (host : Host) (n : number) :
  formatDurationSeconds host n <> ""
  /\ formatDurationSeconds host Infinity = "Infinitym"
  /\ formatDurationSeconds host NaN = "NaNs"
  /\ formatDurationSeconds host NegInfinity = "1s".
Proof.
  split; [|repeat split].
  unfold formatDurationSeconds. cbv zeta.
  destruct (gt (Math_floor (div_by (Math_max (ofZ 1) n) 60)) (ofZ 0)).
  - destruct (gt (rem_by (Math_max (ofZ 1) n) 60) (ofZ 0) || _).
    + change ((numberToString host
                 (Math_floor (div_by (Math_max (ofZ 1) n) 60)) +:+ "m")
              +:+ ""
              +:+ (numberToString host (rem_by (Math_max (ofZ 1) n) 60) +:+ "s")
              <> "").
      do 3 apply append_suffix_nonempty. discriminate.
    + change (numberToString host
                (Math_floor (div_by (Math_max (ofZ 1) n) 60)) +:+ "m" <> "").
      apply append_suffix_nonempty. discriminate.
  - rewrite orb_true_r.
    change (numberToString host (rem_by (Math_max (ofZ 1) n) 60) +:+ "s" <> "").
    apply append_suffix_nonempty. discriminate.
Qed.

(** X21.  In mode CUSTOM the duration override is applied under the same guard
    as the concurrency override: an absent, NaN, zero or negative
    override leaves the default [1m]; an override of plus infinity passes
    the guard and resolves to the duration [Infinitym].  Neither override
    changes what the other one resolves. *)
Theorem custom_duration_guard (host : Host) (env : Env) :
  selectedMode env = "CUSTOM" ->
  (~ positive (customDurationOverride host env) ->
     opt_duration (options host env) = "1m")
  /\ (CUSTOM_DURATION_SECONDS env = None -> opt_duration (options host env) = "1m")
  /\ (customDurationOverride host env = Infinity ->
     opt_duration (options host env) = "Infinitym")
  /\ (~ positive (customVusOverride host env) ->
     opt_vus (options host env) = ofZ 20).
Proof.
  intros Hm.
  assert (Hneg : ~ positive (customDurationOverride host env) ->
                 opt_duration (options host env) = "1m").
  { intros Hp. rewrite custom_duration by exact Hm.
    apply override_guard_false in Hp. rewrite Hp. reflexivity. }
  split; [exact Hneg|]. split; [|split].
  - intros Hn. apply Hneg. unfold customDurationOverride. rewrite Hn.
    simpl. intros H. discriminate H.
  - intros Hi. rewrite custom_duration by exact Hm. rewrite Hi. reflexivity.
  - intros Hp. rewrite custom_vus by exact Hm.
    apply override_guard_false in Hp. rewrite Hp. reflexivity.
Qed.

Lemma custom_duration_guard_witness :
  selectedMode (customEnv (Some "7") (Some "Infinity")) = "CUSTOM"
  /\ customDurationOverride RefHost.host (customEnv (Some "7") (Some "Infinity"))
     = Infinity
  /\ opt_duration (options RefHost.host (customEnv (Some "7") (Some "Infinity")))
     = "Infinitym".
Proof.
  split; [reflexivity|]. split; [reflexivity|].
  destruct (custom_duration_guard RefHost.host
              (customEnv (Some "7") (Some "Infinity")) eq_refl)
    as (_ & _ & H & _).
  apply H. reflexivity.
Defined.
